(** * syncOpenseaOrders.js: a shallow embedding and its properties

    The script polls a marketplace for the listings of one collection,
    normalises every order it receives and posts the result to a backend.
    This file embeds [src/syncOpenseaOrders.js] function by function:

    - the values of the script are the values [JSON.parse] can produce (plus
      [undefined]); property reads, [?.], [||], [??] and [ToString] follow
      ECMAScript on those values;
    - a string is kept as the bytes of its UTF-8 encoding, a lone surrogate
      (which [JSON.parse] lets through) as the three bytes such an encoding
      would give it; [toLowerCase] is the platform's, known by what it does on
      ASCII text; [encodeURIComponent] throws on a lone surrogate;
    - code that can throw lives in [result]; [try]/[catch] is a [match] on it;
    - [async] code lives in [task], a monad over the counters of [main], the
      log of the requests sent, and a budget of responses: a run that has used
      its budget stops at the [await] it has reached, so the state at every
      suspension point of a run can be observed.

    Left out: the text written to the console, the two delays, the request
    headers, the backend URL and the serialisation of the payload, and the two
    configuration checks of lines 11-18 (a run is one that has passed them).
    The services see the [cursor] parameter of a request; the URL fetchOrders
    builds around it is given before [main]. *)

From Stdlib Require Import String Ascii List Bool Arith Lia ZArith DecimalString.
Import ListNotations.
Open Scope string_scope.

(** ** Numbers

    A JavaScript number is an IEEE double.  The script never computes with the
    numbers it receives: it only tests them for truthiness and prints them in
    a template literal.  They are therefore kept abstract. *)

Class JSNumber : Type := {
  number : Type;
  (** [ToBoolean] is false exactly on [+0], [-0] and [NaN]. *)
  num_falsy : number -> bool;
  (** [Number::toString]. *)
  num_to_string : number -> string;
  (** The number of a length or of a small literal such as [0]. *)
  num_of_nat : nat -> number;
  num_of_nat_falsy : forall n, num_falsy (num_of_nat n) = (n =? 0)%nat
}.

(** Integer-valued numbers, printed with all their digits, for the concrete
    runs below, which hold only 0 and small lengths.  (A double prints large
    values in exponent form and can hold fractions; the general theorems do
    not depend on this instance.) *)
#[export] Instance integer_numbers : JSNumber := {|
  number := Z;
  num_falsy := fun z => (z =? 0)%Z;
  num_to_string := fun z => NilZero.string_of_int (Z.to_int z);
  num_of_nat := Z.of_nat;
  num_of_nat_falsy := fun n =>
    match n return ((Z.of_nat n =? 0)%Z = (n =? 0)%nat) with
    | O => eq_refl
    | S _ => eq_refl
    end
|}.

(** ** Strings

    A JavaScript string is a sequence of UTF-16 code units.  It is kept here as
    the bytes of its UTF-8 encoding, generalised to strings that are not
    well-formed: a surrogate that has no partner is encoded like any other
    code point of its range, as the three bytes [ED], [A0]-[BF], [80]-[BF]
    (a pair of surrogates is the four bytes of the character it stands for).
    Every string of the script has such an encoding, and the bytes below 128
    are exactly its ASCII characters.  The script joins strings only around an
    ASCII character (the hyphen of line 161, [&cursor=] of line 28, the comma
    of a printed array), where the encoding of the whole is the
    concatenation of the encodings. *)

Fixpoint all_chars (f : ascii -> bool) (s : string) : bool :=
  match s with
  | EmptyString => true
  | String c rest => f c && all_chars f rest
  end.

(** The first bytes of the encoding of a surrogate. *)
Definition surrogate_lead (c : ascii) (rest : string) : bool :=
  (nat_of_ascii c =? 237)%nat &&
  match rest with
  | String d _ => ((160 <=? nat_of_ascii d) && (nat_of_ascii d <=? 191))%nat
  | EmptyString => false
  end.

(** [String.prototype.isWellFormed]: the string holds no lone surrogate. *)
Fixpoint isWellFormed (s : string) : bool :=
  match s with
  | EmptyString => true
  | String c rest => negb (surrogate_lead c rest) && isWellFormed rest
  end.

Definition ascii_char (c : ascii) : bool := (nat_of_ascii c <? 128)%nat.

(** One of the letters A-Z. *)
Definition capital (c : ascii) : bool :=
  ((65 <=? nat_of_ascii c) && (nat_of_ascii c <=? 90))%nat.

Definition lower_ascii (c : ascii) : ascii :=
  let n := nat_of_ascii c in
  if ((65 <=? n) && (n <=? 90))%nat then ascii_of_nat (n + 32) else c.

(** Lowering the letters A-Z and nothing else. *)
Fixpoint lowercase (s : string) : string :=
  match s with
  | EmptyString => EmptyString
  | String c rest => String (lower_ascii c) (lowercase rest)
  end.

(** [String.prototype.toLowerCase] lowers every cased letter of Unicode, some
    of them by their context.  Of that function the script's properties need
    two facts: on ASCII text it lowers the letters A-Z and nothing else, and
    no letter A-Z is left in, or brought into, its result.  It is kept
    abstract otherwise. *)
Class JSText : Type := {
  to_lower : string -> string;
  to_lower_ascii :
    forall s, all_chars ascii_char s = true -> to_lower s = lowercase s;
  to_lower_no_capital :
    forall s, all_chars (fun c => negb (capital c)) (to_lower s) = true
}.

(** Lowering A-Z only: [toLowerCase] on texts whose only cased letters are
    ASCII, as the hexadecimal addresses of the concrete runs below. *)
#[export, refine] Instance ascii_cased_text : JSText := {|
  to_lower := lowercase
|}.
Proof.
  - reflexivity.
  - induction s as [|c s IH]; [reflexivity|].
    cbn [lowercase all_chars]. rewrite IH.
    destruct c as [[] [] [] [] [] [] [] []]; reflexivity.
Defined.

(** ** Errors and fallible expressions *)

Inductive error : Type :=
| TypeError        (* a property read on null/undefined, a call of a non-function,
                      an object that is not iterable or not printable *)
| FetchFailed      (* the rejection of [fetch] on a transport failure *)
| JsonSyntaxError  (* the rejection of [res.json()] on an unparseable body *)
| URIError.        (* [encodeURIComponent] on a lone surrogate *)

Inductive result (A : Type) : Type :=
| Ok (a : A)
| Throw (e : error).
Arguments Ok {A} a.
Arguments Throw {A} e.

Definition rbind {A B : Type} (r : result A) (k : A -> result B) : result B :=
  match r with
  | Ok a => k a
  | Throw e => Throw e
  end.

Notation "'let*' x ':=' r 'in' k" := (rbind r (fun x => k))
  (at level 10, x name, r at level 100, k at level 200).

Section Script.

Context {N : JSNumber}.

(** ** Values *)

#[local] Set Warnings "-register-all".

Inductive value : Type :=
| JUndefined
| JNull
| JBool (b : bool)
| JNum (n : number)
| JStr (s : string)
| JArr (items : list value)
| JObj (fields : list (string * value)).

Definition nullish (v : value) : bool :=
  match v with
  | JUndefined | JNull => true
  | _ => false
  end.

(** [ToBoolean]. *)
Definition truthy (v : value) : bool :=
  match v with
  | JUndefined | JNull => false
  | JBool b => b
  | JNum n => negb (num_falsy n)
  | JStr s => negb (s =? "")
  | JArr _ | JObj _ => true
  end.

(** Own property of an object built by [JSON.parse]. *)
Fixpoint own (fields : list (string * value)) (k : string) : option value :=
  match fields with
  | [] => None
  | (k', v) :: rest => if k' =? k then Some v else own rest k
  end.

(** [v.name] on a value that is neither null nor undefined, for the property
    names the script reads (none of them is a member of a prototype, apart from
    [length]). *)
Definition Get (v : value) (name : string) : value :=
  match v with
  | JObj fields =>
      match own fields name with
      | Some x => x
      | None => JUndefined
      end
  | JArr items =>
      if name =? "length" then JNum (num_of_nat (List.length items)) else JUndefined
  | JStr s =>
      if name =? "length" then JNum (num_of_nat (String.length s)) else JUndefined
  | _ => JUndefined
  end.

(** [v[i]] on a value that is neither null nor undefined. *)
Definition GetIndex (v : value) (i : nat) : value :=
  match v with
  | JObj fields =>
      match own fields (NilEmpty.string_of_uint (Nat.to_uint i)) with
      | Some x => x
      | None => JUndefined
      end
  | JArr items => nth i items JUndefined
  | JStr s =>
      match String.get i s with
      | Some c => JStr (String c EmptyString)
      | None => JUndefined
      end
  | _ => JUndefined
  end.

(** *** Expressions

    An expression evaluates to a value or throws. *)

Definition expr : Type := result value.

(** [e.name]: throws on null and undefined. *)
Definition member (e : expr) (name : string) : expr :=
  let* v := e in
  if nullish v then Throw TypeError else Ok (Get v name).

(** [e?.name]. *)
Definition opt_member (e : expr) (name : string) : expr :=
  let* v := e in
  if nullish v then Ok JUndefined else Ok (Get v name).

(** [e[i]] and [e?.[i]]. *)
Definition index (e : expr) (i : nat) : expr :=
  let* v := e in
  if nullish v then Throw TypeError else Ok (GetIndex v i).

Definition opt_index (e : expr) (i : nat) : expr :=
  let* v := e in
  if nullish v then Ok JUndefined else Ok (GetIndex v i).

(** [a || b]: [b] is evaluated only when [a] is falsy. *)
Definition js_or (a b : expr) : expr :=
  let* v := a in
  if truthy v then Ok v else b.

(** [a ?? b]. *)
Definition js_coalesce (a b : expr) : expr :=
  let* v := a in
  if nullish v then b else Ok v.

(** [c ? a : b]. *)
Definition js_cond (c a b : expr) : expr :=
  let* v := c in
  if truthy v then a else b.

End Script.

(** Notation for the expressions of the script: [e ~> "p"] is [e.p],
    [e ?> "p"] is [e?.p], [a ||| b] is [a || b] and [a ??? b] is [a ?? b]. *)
Notation "e ~> name" := (member e name) (at level 40, left associativity).
Notation "e ?> name" := (opt_member e name) (at level 40, left associativity).
Notation "a ||| b" := (js_or a b) (at level 50, left associativity).
Notation "a ??? b" := (js_coalesce a b) (at level 50, left associativity).

Section Extraction.

Context {N : JSNumber} {Tx : JSText}.

(** ** Strings *)

(** [ToString], as applied by a template literal and by [encodeURIComponent].
    An array prints its elements separated by commas, null and undefined
    elements as nothing.  An object prints as [[object Object]] unless it has an
    own property [toString]: a parsed value is never callable, so neither that
    property nor [Object.prototype.valueOf] yields a primitive and the
    conversion throws. *)
Fixpoint to_string (v : value) : result string :=
  match v with
  | JUndefined => Ok "undefined"
  | JNull => Ok "null"
  | JBool true => Ok "true"
  | JBool false => Ok "false"
  | JNum n => Ok (num_to_string n)
  | JStr s => Ok s
  | JArr items =>
      (fix join (l : list value) : result string :=
         match l with
         | [] => Ok ""
         | x :: rest =>
             let* sx := (if nullish x then Ok "" else to_string x) in
             match rest with
             | [] => Ok sx
             | _ :: _ => let* sr := join rest in Ok (sx ++ "," ++ sr)
             end
         end) items
  | JObj fields =>
      match own fields "toString" with
      | Some _ => Throw TypeError
      | None => Ok "[object Object]"
      end
  end.

(** [e.toLowerCase()]: only a string has the method; on any other value the
    property is undefined or a parsed value, and the call throws. *)
Definition toLowerCase (e : expr) : result string :=
  let* v := e in
  match v with
  | JStr s => Ok (to_lower s)
  | _ => Throw TypeError
  end.

(** ** normalizeOrder (lines 73-95) *)

Record normalized : Type := {
  protocol : value;
  maker : value;
  orderHash : value;
  price : value
}.

Definition normalizeOrder_try (order : value) : result normalized :=
  let* protocol :=
    Ok order ~> "protocol_data" |||
    Ok order ~> "protocolData" |||
    Ok order ~> "protocol" |||
    Ok JNull in
  let* maker := Ok order ~> "maker" ||| Ok order ~> "maker_address" ||| Ok (JObj []) in
  let* orderHash := Ok order ~> "order_hash" ||| Ok order ~> "hash" ||| Ok JNull in
  let* price :=
    Ok order ~> "price" ?> "current" ?> "value" |||
    Ok order ~> "price" ?> "value" |||
    Ok order ~> "current_price" |||
    Ok order ~> "starting_price" |||
    Ok JNull in
  Ok {| protocol := protocol; maker := maker; orderHash := orderHash; price := price |}.

Definition normalizeOrder (order : value) : normalized :=
  match normalizeOrder_try order with
  | Ok n => n
  | Throw _ => {| protocol := JNull; maker := JObj []; orderHash := JNull; price := JNull |}
  end.

(** ** extractNftMeta, extractTokenId, extractImage (lines 98-127) *)

Definition extractNftMeta (ord : value) : expr :=
  Ok ord ?> "criteria" ?> "metadata" |||
  Ok ord ?> "asset" |||
  js_cond (Ok ord ?> "assets") (index (Ok ord ~> "assets") 0) (Ok JNull) |||
  Ok ord ?> "item" |||
  opt_index (Ok ord ?> "items") 0 |||
  Ok JNull.

Definition extractTokenId (nftMeta : value) : expr :=
  Ok nftMeta ?> "identifier" |||
  Ok nftMeta ?> "token_id" |||
  Ok nftMeta ?> "tokenId" |||
  Ok nftMeta ?> "id" |||
  Ok JNull.

Definition extractImage (nftMeta : value) : expr :=
  Ok nftMeta ?> "image_url" |||
  Ok nftMeta ?> "image" |||
  Ok nftMeta ?> "thumbnail" |||
  Ok nftMeta ?> "metadata" ?> "image" |||
  Ok JNull.

(** ** The payload of one order (main, lines 146-164) *)

Record payload : Type := {
  tokenId : value;
  payload_price : value;
  sellerAddress : string;
  seaportOrder : value;
  payload_orderHash : value;
  image : value;
  marketplaceContract : value
}.

(** What the body of the [for] loop makes of an order before it counts it:
    nothing ([continue]) or the payload it goes on to post. *)
Inductive normalization : Type :=
| Skip
| Listing (p : payload).

(** [PROXY_CONTRACT_ADDRESS] is read from the environment once, at start:
    a string, or undefined when the variable is not set. *)
Definition normalize (PROXY_CONTRACT_ADDRESS : value) (ord : value)
  : result normalization :=
  let* nftMeta := extractNftMeta ord in
  if negb (truthy nftMeta) then Ok Skip else
  let* tokenId := extractTokenId nftMeta in
  let* image := extractImage nftMeta in
  if negb (truthy tokenId) then Ok Skip else
  let n := normalizeOrder ord in
  let* price := Ok (price n) ??? Ok (JNum (num_of_nat 0)) in
  let* sellerAddress :=
    toLowerCase (Ok (maker n) ?> "address" ||| Ok (maker n) ||| Ok (JStr "unknown")) in
  let* seaportOrder := Ok (protocol n) ||| Ok ord in
  let* orderHash :=
    Ok (orderHash n) |||
    (let* t := to_string tokenId in
     let* a := Ok (maker n) ?> "address" ||| Ok (JStr "unknown") in
     let* sa := to_string a in
     Ok (JStr (t ++ "-" ++ sa))) in
  let* image := Ok image ||| Ok JNull in
  Ok (Listing {|
    tokenId := tokenId;
    payload_price := price;
    sellerAddress := sellerAddress;
    seaportOrder := seaportOrder;
    payload_orderHash := orderHash;
    image := image;
    marketplaceContract := PROXY_CONTRACT_ADDRESS
  |}).

End Extraction.

(** ** The two services and the state of a run *)

Section Run.

Context {N : JSNumber}.

(** What [await res.json()] finds in a response.  A body that cannot be read
    at all behaves like a malformed one in both functions below. *)
Inductive body : Type :=
| BodyJson (v : value)
| BodyMalformed.

(** The outcome of one [await fetch(...)]: the promise rejects, or it resolves
    to a response with a status and a body. *)
Inductive fetch_outcome : Type :=
| TransportError
| Response (status : nat) (b : body).

(** [res.ok]: the status is in the range 200-299. *)
Definition ok (status : nat) : bool :=
  ((200 <=? status) && (status <=? 299))%nat.

(** The environment of a run: the proxy contract address of the configuration
    and the two services.  A service answers a request knowing how many
    requests it has answered before and what the request carries: for OpenSea
    the [cursor] parameter of the URL, if any; for the backend the payload. *)
Record world : Type := {
  PROXY_CONTRACT_ADDRESS : value;
  opensea : nat -> option string -> fetch_outcome;
  backend : nat -> payload -> fetch_outcome
}.

(** The variables of [main] and the requests sent so far, oldest first. *)
Record state : Type := {
  cursor : value;
  totalScanned : nat;
  totalSent : nat;
  fetches : list (option string);
  posts : list payload
}.

(** ** Asynchronous code

    A task runs from a state with a budget of responses.  It returns, throws,
    or is still pending at an [await] when the budget is used up. *)

Inductive run (A : Type) : Type :=
| Returned (a : A) (fuel : nat) (s : state)
| Thrown (e : error) (s : state)
| Pending (s : state).
Arguments Returned {A} a fuel s.
Arguments Thrown {A} e s.
Arguments Pending {A} s.

Definition task (A : Type) : Type := nat -> state -> run A.

Definition ret {A : Type} (a : A) : task A :=
  fun fuel s => Returned a fuel s.

Definition bind {A B : Type} (m : task A) (k : A -> task B) : task B :=
  fun fuel s =>
    match m fuel s with
    | Returned a fuel' s' => k a fuel' s'
    | Thrown e s' => Thrown e s'
    | Pending s' => Pending s'
    end.

(** A synchronous expression inside a task. *)
Definition lift {A : Type} (r : result A) : task A :=
  fun fuel s =>
    match r with
    | Ok a => Returned a fuel s
    | Throw e => Thrown e s
    end.

Definition get_state : task state :=
  fun fuel s => Returned s fuel s.

Definition put_state (s : state) : task unit :=
  fun fuel _ => Returned tt fuel s.

(** The response to a request that has been sent arrives when the budget
    allows one more response. *)
Definition await {A : Type} (a : A) : task A :=
  fun fuel s =>
    match fuel with
    | O => Pending s
    | S fuel' => Returned a fuel' s
    end.

End Run.

Arguments Returned {N A} a fuel s.
Arguments Thrown {N A} e s.
Arguments Pending {N A} s.

Notation "x <- m ;; k" := (bind m (fun x => k))
  (at level 61, m at next level, right associativity).
Notation "m ;;; k" := (bind m (fun _ => k))
  (at level 61, right associativity).

(** ** The request URL of fetchOrders (lines 27-28)

    The services below are handed the [cursor] parameter of a request; this is
    the URL that carries it. *)

Section Request.

Context {N : JSNumber}.

(** The characters encodeURIComponent leaves as they are: letters, digits
    and [- _ . ! ~ * ' ( )]. *)
Definition unreserved (c : ascii) : bool :=
  let n := nat_of_ascii c in
  (((65 <=? n) && (n <=? 90)) || ((97 <=? n) && (n <=? 122)) ||
   ((48 <=? n) && (n <=? 57)) ||
   (n =? 45) || (n =? 95) || (n =? 46) || (n =? 33) || (n =? 126) ||
   (n =? 42) || (n =? 39) || (n =? 40) || (n =? 41))%nat.

(** The upper-case hexadecimal digit of a number below 16. *)
Definition hex_digit (n : nat) : ascii :=
  if (n <? 10)%nat then ascii_of_nat (48 + n) else ascii_of_nat (55 + n).

(** [%XX], with upper-case digits. *)
Definition percent_encode (c : ascii) (rest : string) : string :=
  let n := nat_of_ascii c in
  String "%" (String (hex_digit (n / 16)) (String (hex_digit (n mod 16)) rest)).

(** Every byte of the UTF-8 encoding of a character that is not unreserved is
    escaped, so the escaping goes byte by byte. *)
Fixpoint escape (s : string) : string :=
  match s with
  | EmptyString => EmptyString
  | String c rest =>
      if unreserved c then String c (escape rest)
      else percent_encode c (escape rest)
  end.

(** [encodeURIComponent]: a lone surrogate has no UTF-8 encoding to escape,
    and the call throws a URIError. *)
Definition encodeURIComponent (s : string) : result string :=
  if isWellFormed s then Ok (escape s) else Throw URIError.

(** The constants of lines 20-22. *)
Definition CHAIN : string := "apechain".
Definition ORDER_TYPE : string := "listings".
Definition PAGE_SIZE : nat := 50.

(** The URL fetchOrders requests: the contract address is the string the
    environment holds (the script exits at line 17 when there is none), the
    cursor is printed and escaped when it is truthy. *)
Definition fetchOrders_url (NFT_CONTRACT_ADDRESS : string) (cursor : value)
  : result string :=
  let url :=
    "https://api.opensea.io/api/v2/orders/" ++ CHAIN ++ "/" ++ ORDER_TYPE ++
    "?limit=" ++ NilEmpty.string_of_uint (Nat.to_uint PAGE_SIZE) ++
    "&asset_contract_address=" ++ NFT_CONTRACT_ADDRESS in
  if truthy cursor
  then let* c := to_string cursor in
       let* encoded := encodeURIComponent c in
       Ok (url ++ "&cursor=" ++ encoded)
  else Ok url.

End Request.

Section Main.

Context {N : JSNumber} {Tx : JSText}.
Variable w : world.

(** [await fetch(url, ...)] in fetchOrders: the request is sent, then awaited. *)
Definition fetch_opensea (cursor_param : option string) : task fetch_outcome :=
  s <- get_state ;;
  put_state {| cursor := cursor s; totalScanned := totalScanned s;
               totalSent := totalSent s;
               fetches := fetches s ++ [cursor_param]; posts := posts s |} ;;;
  await (opensea w (length (fetches s)) cursor_param).

(** [await fetch(`${BACKEND_URL}/order`, ...)] in postOrderToBackend. *)
Definition fetch_backend (p : payload) : task fetch_outcome :=
  s <- get_state ;;
  put_state {| cursor := cursor s; totalScanned := totalScanned s;
               totalSent := totalSent s;
               fetches := fetches s; posts := posts s ++ [p] |} ;;;
  await (backend w (length (posts s)) p).

(** ** fetchOrders (lines 26-44)

    The URL is built first (see [fetchOrders_url]): a cursor that cannot be
    printed or escaped throws before any request is made.  The service is
    handed the cursor that the URL carries. *)

Definition fetchOrders (cursor : value) : task value :=
  cursor_param <- lift (if truthy cursor
                        then let* c := to_string cursor in
                             let* _ := encodeURIComponent c in
                             Ok (Some c)
                        else Ok None) ;;
  res <- fetch_opensea cursor_param ;;
  match res with
  | TransportError => lift (Throw FetchFailed)
  | Response status b =>
      if negb (ok status) then ret JNull
      else
        match b with
        | BodyJson v => ret v
        | BodyMalformed => lift (Throw JsonSyntaxError)
        end
  end.

(** ** postOrderToBackend (lines 46-70) *)

(** The [try] block, given the outcome of its [fetch]. *)
Definition postOrderToBackend_try (res : fetch_outcome) : result bool :=
  match res with
  | TransportError => Throw FetchFailed
  | Response status b =>
      if negb (ok status) then Ok false
      else
        let data := match b with BodyJson v => v | BodyMalformed => JNull end in
        let* success := Ok data ?> "success" in
        if negb (truthy success) then Ok false else Ok true
  end.

Definition postOrderToBackend (orderPayload : payload) : task bool :=
  res <- fetch_backend orderPayload ;;
  match postOrderToBackend_try res with
  | Ok b => ret b
  | Throw _ => ret false
  end.

(** ** main (lines 129-183) *)

Definition incr_totalScanned : task unit :=
  s <- get_state ;;
  put_state {| cursor := cursor s; totalScanned := S (totalScanned s);
               totalSent := totalSent s; fetches := fetches s; posts := posts s |}.

Definition incr_totalSent : task unit :=
  s <- get_state ;;
  put_state {| cursor := cursor s; totalScanned := totalScanned s;
               totalSent := S (totalSent s); fetches := fetches s; posts := posts s |}.

Definition set_cursor (c : value) : task unit :=
  s <- get_state ;;
  put_state {| cursor := c; totalScanned := totalScanned s;
               totalSent := totalSent s; fetches := fetches s; posts := posts s |}.

(** The body of the [for] loop (lines 146-171).  The two [sleep]s of [main]
    only delay the run and are left out. *)
Definition process_order (ord : value) : task unit :=
  n <- lift (normalize (PROXY_CONTRACT_ADDRESS w) ord) ;;
  match n with
  | Skip => ret tt
  | Listing p =>
      incr_totalScanned ;;;
      sent <- postOrderToBackend p ;;
      if sent then incr_totalSent else ret tt
  end.

(** The values a [for ... of] loop visits: the elements of an array, the
    characters of a string; any other parsed value is not iterable. *)
Fixpoint characters (s : string) : list value :=
  match s with
  | EmptyString => []
  | String c rest => JStr (String c EmptyString) :: characters rest
  end.

Definition iterate (v : value) : result (list value) :=
  match v with
  | JArr items => Ok items
  | JStr s => Ok (characters s)
  | _ => Throw TypeError
  end.

Fixpoint for_of {A : Type} (l : list A) (body : A -> task unit) : task unit :=
  match l with
  | [] => ret tt
  | x :: rest => body x ;;; for_of rest body
  end.

(** The [while (true)] loop, unrolled at most [n] times. *)
Fixpoint main_loop (n : nat) : task unit :=
  match n with
  | O => fun _ s => Pending s
  | S n' =>
      s <- get_state ;;
      (* console.log(`... (cursor=${cursor || "null"})`) *)
      lift (let* c := Ok (cursor s) ||| Ok (JStr "null") in to_string c) ;;;
      data <- fetchOrders (cursor s) ;;
      len <- lift (Ok data ?> "orders" ?> "length") ;;
      if negb (truthy len) then ret tt
      else
        orders <- lift (let* o := Ok data ~> "orders" in iterate o) ;;
        for_of orders process_order ;;;
        next <- lift (Ok data ~> "next" ||| Ok data ~> "cursor" ||| Ok JNull) ;;
        set_cursor next ;;;
        if negb (truthy next) then ret tt else main_loop n'
  end.

Definition initial : state :=
  {| cursor := JNull; totalScanned := 0; totalSent := 0; fetches := []; posts := [] |}.

(** How a run stands once [fuel] responses have been delivered: [main] has
    printed its two totals, or the rejection has reached the handler of line
    185, or the run is waiting for the next response. *)
Inductive outcome : Type :=
| Done (s : state)
| Fatal (e : error) (s : state)
| Running (s : state).

(** Every turn of the loop awaits at least one response, so [S fuel] turns
    are enough for a budget of [fuel]. *)
Definition main (fuel : nat) : outcome :=
  match main_loop (S fuel) fuel initial with
  | Returned _ _ s => Done s
  | Thrown e s => Fatal e s
  | Pending s => Running s
  end.

Definition final_state (o : outcome) : state :=
  match o with
  | Done s | Fatal _ s | Running s => s
  end.

End Main.

(** * Properties *)

(** ** Definitions used by the statements *)

Section Statements.

Context {N : JSNumber} {Tx : JSText}.

(** The value of [v?.name]. *)
Definition opt_get (v : value) (name : string) : value :=
  if nullish v then JUndefined else Get v name.

(** First match wins: the first truthy candidate, or null. *)
Fixpoint first_truthy (candidates : list value) : value :=
  match candidates with
  | [] => JNull
  | v :: rest => if truthy v then v else first_truthy rest
  end.

(** The value of [v?.[i]]. *)
Definition opt_get_index (v : value) (i : nat) : value :=
  if nullish v then JUndefined else GetIndex v i.

(** The five places extractNftMeta looks at, in its order. *)
Definition nftMeta_candidates (ord : value) : list value :=
  [opt_get (opt_get ord "criteria") "metadata";
   opt_get ord "asset";
   opt_get_index (opt_get ord "assets") 0;
   opt_get ord "item";
   opt_get_index (opt_get ord "items") 0].

(** The four fields extractTokenId reads, in its order. *)
Definition tokenId_candidates (nftMeta : value) : list value :=
  [opt_get nftMeta "identifier"; opt_get nftMeta "token_id";
   opt_get nftMeta "tokenId"; opt_get nftMeta "id"].

(** An expression resolves when it yields a truthy value. *)
Definition resolves (e : expr) : bool :=
  match e with
  | Ok v => truthy v
  | Throw _ => false
  end.

(** *** The backend's answer, in the words of the specification *)

Definition backend_accepts (o : fetch_outcome) : Prop :=
  exists status v,
    o = Response status (BodyJson v) /\ ok status = true /\
    truthy (opt_get v "success") = true.

Definition backend_fails (o : fetch_outcome) : Prop :=
  o = TransportError \/
  (exists status b, o = Response status b /\ ok status = false) \/
  (exists status, o = Response status BodyMalformed) \/
  (exists status v, o = Response status (BodyJson v) /\
                    truthy (opt_get v "success") = false).

(** *** Observations of a run *)

Definition run_state {A : Type} (r : run A) : state :=
  match r with
  | Returned _ _ s | Thrown _ s | Pending s => s
  end.

Definition thrown {A : Type} (r : run A) : option error :=
  match r with
  | Thrown e _ => Some e
  | _ => None
  end.

(** The payloads posted by a task that started in state [s]. *)
Definition forwarded {A : Type} (s : state) (r : run A) : list payload :=
  skipn (length (posts s)) (posts (run_state r)).

(** The counters agree with each other and with the log of posts. *)
Definition counters_ok (s : state) : Prop :=
  totalSent s <= totalScanned s /\ totalScanned s = length (posts s).

(** *** postOrderToBackend, seen from the loop *)

(** The state once a payload has been posted. *)
Definition log_post (p : payload) (s : state) : state :=
  {| cursor := cursor s; totalScanned := totalScanned s; totalSent := totalSent s;
     fetches := fetches s; posts := posts s ++ [p] |}.

(** What postOrderToBackend returns for an outcome of its fetch. *)
Definition verdict (o : fetch_outcome) : bool :=
  match postOrderToBackend_try o with
  | Ok b => b
  | Throw _ => false
  end.

(** A task keeps the counters in order when every state it can stop in
    (returning, throwing or pending) has them in order. *)
Definition keeps {A : Type} (m : task A) : Prop :=
  forall fuel s, counters_ok s -> counters_ok (run_state (m fuel s)).

(** A task never returns with more budget than it was given. *)
Definition frugal {A : Type} (m : task A) : Prop :=
  forall fuel s a fuel' s', m fuel s = Returned a fuel' s' -> fuel' <= fuel.

(** The four places normalizeOrder looks for a price, in its order. *)
Definition price_candidates (order : value) : list value :=
  [opt_get (opt_get (Get order "price") "current") "value";
   opt_get (Get order "price") "value";
   Get order "current_price";
   Get order "starting_price"].

(** *** Pagination *)

(** The state once a page has been requested. *)
Definition log_fetch (param : option string) (s : state) : state :=
  {| cursor := cursor s; totalScanned := totalScanned s; totalSent := totalSent s;
     fetches := fetches s ++ [param]; posts := posts s |}.

(** The cursor a page hands on (line 174). *)
Definition next_cursor (data : value) : expr :=
  Ok data ~> "next" ||| Ok data ~> "cursor" ||| Ok JNull.

(** OpenSea answers its i-th request with the i-th page, whatever is asked. *)
Definition serves (w : world) (pages : list value) : Prop :=
  forall i page, nth_error pages i = Some page ->
    forall param, exists status,
      ok status = true /\ opensea w i param = Response status (BodyJson page).

(** The page lists at least one order, and each of its orders is normalised
    without a fault. *)
Definition carries_orders (proxy page : value) : Prop :=
  exists ord rest,
    Get page "orders" = JArr (ord :: rest) /\
    Forall (fun o => exists n, normalize proxy o = Ok n) (ord :: rest).

(** A page that is not the last one, with the cursor string it hands on:
    not empty, and without a lone surrogate, so that it can be escaped. *)
Definition linked (proxy : value) (pc : value * string) : Prop :=
  carries_orders proxy (fst pc) /\
  next_cursor (fst pc) = Ok (JStr (snd pc)) /\
  snd pc <> "" /\
  isWellFormed (snd pc) = true.

(** The [cursor] parameter of the request made for a cursor. *)
Definition cursor_param (c : value) : option string :=
  match c with
  | JStr x => Some x
  | _ => None
  end.

(** The cursors [main] holds in such a run: none, or a non-empty well-formed
    string. *)
Definition cursor_ok (c : value) : Prop :=
  c = JNull \/ exists x, c = JStr x /\ x <> "" /\ isWellFormed x = true.

(** *** Invariants of a run *)

(** A task started in a state with [P] returns in a state with [Q], throws
    in a state with [T], or is pending in a state with [D]. *)
Definition triple {A : Type} (P : state -> Prop) (m : task A)
    (Q : A -> state -> Prop) (T D : state -> Prop) : Prop :=
  forall fuel s, P s ->
    match m fuel s with
    | Returned a _ s' => Q a s'
    | Thrown _ s' => T s'
    | Pending s' => D s'
    end.

(** The state once [main] has assigned its cursor (line 174). *)
Definition with_cursor (c : value) (s : state) : state :=
  {| cursor := c; totalScanned := totalScanned s; totalSent := totalSent s;
     fetches := fetches s; posts := posts s |}.

(** The [cursor] parameter fetchOrders puts in its request (line 28), once
    the cursor has been printed and escaped. *)
Definition request_param (c : value) : result (option string) :=
  if truthy c
  then let* x := to_string c in let* _ := encodeURIComponent x in Ok (Some x)
  else Ok None.

(** How many of the payloads posted, the first of them being the [i]-th post
    of the run, the backend accepted. *)
Fixpoint accepted_from (w : world) (i : nat) (ps : list payload) : nat :=
  match ps with
  | [] => 0
  | p :: rest =>
      (if verdict (backend w i p) then 1 else 0) + accepted_from w (S i) rest
  end.

(** The answers to all posts are in, or to all but the last one. *)
Definition sent_ok (w : world) (s : state) : Prop :=
  totalSent s = accepted_from w 0 (posts s) \/
  totalSent s = accepted_from w 0 (removelast (posts s)).

Definition sent_exact (w : world) (s : state) : Prop :=
  totalSent s = accepted_from w 0 (posts s).

(** What the backend is ever sent: the sellerAddress is a string that
    toLowerCase returned, with no letter A-Z in it. *)
Definition well_formed (proxy : value) (p : payload) : Prop :=
  marketplaceContract p = proxy /\
  truthy (tokenId p) = true /\
  (exists s, sellerAddress p = to_lower s) /\
  all_chars (fun c => negb (capital c)) (sellerAddress p) = true /\
  truthy (payload_orderHash p) = true.

(** The requests made to OpenSea: the first without a cursor, every later one
    with one. *)
Definition first_only_without_cursor (requests : list (option string)) : Prop :=
  requests = [] \/ exists cursors, requests = None :: map Some cursors.

(** *** The request URL *)

(** What an encoded component is made of: unreserved characters and the
    percent sign of an escape; in particular none of [& = # ? /] and no
    space. *)
Definition uri_safe (c : ascii) : bool := unreserved c || Ascii.eqb c "%".

(** The value of an upper-case hexadecimal digit. *)
Definition hex_value (c : ascii) : nat :=
  let n := nat_of_ascii c in
  if (n <? 58)%nat then n - 48 else n - 55.

(** Reading the escapes back: the inverse of [escape] on its image. *)
Fixpoint decode (s : string) : string :=
  match s with
  | EmptyString => EmptyString
  | String c rest =>
      if Ascii.eqb c "%" then
        match rest with
        | String h (String l rest') =>
            String (ascii_of_nat (16 * hex_value h + hex_value l)) (decode rest')
        | _ => String c (decode rest)
        end
      else String c (decode rest)
  end.

(** *** The payload, field by field *)

(** The value [toLowerCase] is called on (line 159): the maker's address when
    it is truthy, the maker itself otherwise. *)
Definition seller_value (ord : value) : value :=
  let mk := maker (normalizeOrder ord) in
  if truthy (Get mk "address") then Get mk "address" else mk.

(** The four places extractImage looks at, in its order. *)
Definition image_candidates (nftMeta : value) : list value :=
  [opt_get nftMeta "image_url"; opt_get nftMeta "image";
   opt_get nftMeta "thumbnail"; opt_get (opt_get nftMeta "metadata") "image"].

(** The three places normalizeOrder looks for the protocol data, and the two
    it looks for the order hash, in its order. *)
Definition protocol_candidates (order : value) : list value :=
  [Get order "protocol_data"; Get order "protocolData"; Get order "protocol"].

Definition orderHash_candidates (order : value) : list value :=
  [Get order "order_hash"; Get order "hash"].

(** *** What a run posts *)

(** The payloads made of a list of orders, in their order. *)
Definition listed (proxy : value) (orders : list value) : list payload :=
  flat_map (fun ord => match normalize proxy ord with
                       | Ok (Listing p) => [p]
                       | _ => []
                       end) orders.

(** The orders a page lists. *)
Definition orders_of (page : value) : list value :=
  match Get page "orders" with
  | JArr orders => orders
  | _ => []
  end.

(** *** The backend seen from the run *)

(** The same configuration and the same OpenSea, with another backend. *)
Definition with_backend (w : world) (b : nat -> payload -> fetch_outcome) : world :=
  {| PROXY_CONTRACT_ADDRESS := PROXY_CONTRACT_ADDRESS w;
     opensea := opensea w;
     backend := b |}.

(** A state without its count of accepted posts. *)
Definition forget_sent (s : state) : state :=
  {| cursor := cursor s; totalScanned := totalScanned s; totalSent := 0;
     fetches := fetches s; posts := posts s |}.

Definition forget_sent_outcome (o : outcome) : outcome :=
  match o with
  | Done s => Done (forget_sent s)
  | Fatal e s => Fatal e (forget_sent s)
  | Running s => Running (forget_sent s)
  end.

(** Two runs end the same way, with the same budget left and in states that
    differ in totalSent at most. *)
Definition same_but_sent {A : Type} (r1 r2 : run A) : Prop :=
  match r1, r2 with
  | Returned a1 fuel1 s1, Returned a2 fuel2 s2 =>
      a1 = a2 /\ fuel1 = fuel2 /\ forget_sent s1 = forget_sent s2
  | Thrown e1 s1, Thrown e2 s2 => e1 = e2 /\ forget_sent s1 = forget_sent s2
  | Pending s1, Pending s2 => forget_sent s1 = forget_sent s2
  | _, _ => False
  end.

Definition alike {A : Type} (m1 m2 : task A) : Prop :=
  forall fuel s1 s2, forget_sent s1 = forget_sent s2 ->
    same_but_sent (m1 fuel s1) (m2 fuel s2).

(** *** Runs that do not end *)

(** A task that has returned or thrown does the same, and leaves over what
    is added, when more responses are available. *)
Definition steady {A : Type} (m : task A) : Prop :=
  forall fuel s d,
    match m fuel s with
    | Returned a fuel' s' => m (fuel + d) s = Returned a (fuel' + d) s'
    | Thrown e s' => m (fuel + d) s = Thrown e s'
    | Pending _ => True
    end.

(** OpenSea answers every request with a page that lists orders, each
    normalised without a fault, and hands on a cursor that can be escaped. *)
Definition always_hands_on (w : world) : Prop :=
  forall i param, exists status page c,
    ok status = true /\
    opensea w i param = Response status (BodyJson page) /\
    linked (PROXY_CONTRACT_ADDRESS w) (page, c).

(** *** Requests and responses *)

(** The requests made so far, to OpenSea and to the backend. *)
Definition requests (s : state) : nat :=
  length (fetches s) + length (posts s).

(** A task makes its requests one at a time: when it returns or throws, each
    request it made used up one response; when it is pending, one request is
    unanswered. *)
Definition paced_at {A : Type} (m : task A) (fuel : nat) (s : state) : Prop :=
  match m fuel s with
  | Returned _ fuel' s' => fuel' <= fuel /\ requests s' = requests s + (fuel - fuel')
  | Thrown _ s' => exists k, k <= fuel /\ requests s' = requests s + k
  | Pending s' => requests s' = requests s + S fuel
  end.

Definition paced {A : Type} (m : task A) : Prop :=
  forall fuel s, paced_at m fuel s.

End Statements.

(** ** Sample inputs

    Orders, responses and services for the concrete runs. *)

Definition listing_order (id address : string) : value :=
  JObj [("asset", JObj [("identifier", JStr id)]);
        ("maker", JObj [("address", JStr address)])].

Definition accepted : fetch_outcome :=
  Response 200 (BodyJson (JObj [("success", JBool true)])).

Definition accepting_backend : nat -> payload -> fetch_outcome :=
  fun _ _ => accepted.

Definition no_orders : nat -> option string -> fetch_outcome :=
  fun _ _ => Response 200 (BodyJson (JObj [("orders", JArr [])])).

Definition idle_world : world :=
  {| PROXY_CONTRACT_ADDRESS := JStr "0xproxy";
     opensea := no_orders;
     backend := accepting_backend |}.

(** The payload made of [listing_order "7" "0xAbC"]. *)
Definition sample_payload : payload :=
  {| tokenId := JStr "7";
     payload_price := JNum 0%Z;
     sellerAddress := "0xabc";
     seaportOrder := listing_order "7" "0xAbC";
     payload_orderHash := JStr "7-0xAbC";
     image := JNull;
     marketplaceContract := JStr "0xproxy" |}.

(** An order whose maker is given as a bare string, and its payload. *)
Definition bare_maker_order : value :=
  JObj [("asset", JObj [("identifier", JStr "7")]); ("maker_address", JStr "0xAbC")].

Definition bare_maker_payload : payload :=
  {| tokenId := JStr "7";
     payload_price := JNum 0%Z;
     sellerAddress := "0xabc";
     seaportOrder := bare_maker_order;
     payload_orderHash := JStr "7-unknown";
     image := JNull;
     marketplaceContract := JStr "0xproxy" |}.

(** An order with a token and no maker at all. *)
Definition order_without_maker : value :=
  JObj [("asset", JObj [("identifier", JStr "1")])].

(** OpenSea answering its i-th request with the i-th of the given pages, and
    failing once they are used up. *)
Definition serve_pages (pages : list value) : nat -> option string -> fetch_outcome :=
  fun i _ =>
    match nth_error pages i with
    | Some page => Response 200 (BodyJson page)
    | None => TransportError
    end.

Definition world_of (pages : list value) : world :=
  {| PROXY_CONTRACT_ADDRESS := JStr "0xproxy";
     opensea := serve_pages pages;
     backend := accepting_backend |}.

Definition first_page : value :=
  JObj [("orders", JArr [listing_order "1" "0xA"]); ("next", JStr "abc")].

Definition last_page : value :=
  JObj [("orders", JArr [listing_order "2" "0xB"])].

(** A page that lists nothing and still hands on a cursor. *)
Definition empty_page : value :=
  JObj [("orders", JArr []); ("next", JStr "abc")].

Definition makerless_page : value :=
  JObj [("orders", JArr [order_without_maker])].

(** The pages and services of the scenarios of the specification. *)
Definition two_orders_page : value :=
  JObj [("orders", JArr [listing_order "1" "0xA"; listing_order "2" "0xB"])].

Definition tokenless_page : value :=
  JObj [("orders", JArr [JObj [("maker", JObj [("address", JStr "0xA")])]])].

Definition failing_backend_world : world :=
  {| PROXY_CONTRACT_ADDRESS := JStr "0xproxy";
     opensea := serve_pages [last_page];
     backend := fun _ _ => Response 500 (BodyJson (JObj [("success", JBool true)])) |}.

Definition refusing_world : world :=
  {| PROXY_CONTRACT_ADDRESS := JStr "0xproxy";
     opensea := fun _ _ => Response 503 BodyMalformed;
     backend := accepting_backend |}.

(** OpenSea cannot be reached; OpenSea answers 200 with a body that is not JSON. *)
Definition unreachable_world : world :=
  {| PROXY_CONTRACT_ADDRESS := JStr "0xproxy";
     opensea := fun _ _ => TransportError;
     backend := accepting_backend |}.

Definition garbled_world : world :=
  {| PROXY_CONTRACT_ADDRESS := JStr "0xproxy";
     opensea := fun _ _ => Response 200 BodyMalformed;
     backend := accepting_backend |}.

(** A surrogate without its partner (U+D800), and a page that hands it on as
    its cursor: the body [{"orders": [...], "next": "\ud800"}]. *)
Definition lone_surrogate : string :=
  String (ascii_of_nat 237) (String (ascii_of_nat 160) (String (ascii_of_nat 128) "")).

Definition surrogate_page : value :=
  JObj [("orders", JArr [listing_order "1" "0xA"]); ("next", JStr lone_surrogate)].

(** OpenSea answering every request with the same page and the same cursor. *)
Definition looping_world : world :=
  {| PROXY_CONTRACT_ADDRESS := JStr "0xproxy";
     opensea := fun _ _ => Response 200 (BodyJson first_page);
     backend := accepting_backend |}.

(** A body whose orders is an object with a length, not an array. *)
Definition array_like_page : value :=
  JObj [("orders", JObj [("length", JNum 1%Z)])].

Definition array_like_world : world :=
  {| PROXY_CONTRACT_ADDRESS := JStr "0xproxy";
     opensea := fun _ _ => Response 200 (BodyJson array_like_page);
     backend := accepting_backend |}.

(** An order with protocol data, a hash, a price and an image, and its
    payload. *)
Definition full_order : value :=
  JObj [("criteria", JObj [("metadata",
           JObj [("token_id", JStr "9"); ("image", JStr "ipfs://nine")])]);
        ("maker", JObj [("address", JStr "0xDEF")]);
        ("protocol_data", JObj [("parameters", JObj [])]);
        ("hash", JStr "0xh9");
        ("current_price", JStr "1000")].

Definition full_payload : payload :=
  {| tokenId := JStr "9";
     payload_price := JStr "1000";
     sellerAddress := "0xdef";
     seaportOrder := JObj [("parameters", JObj [])];
     payload_orderHash := JStr "0xh9";
     image := JStr "ipfs://nine";
     marketplaceContract := JStr "0xproxy" |}.

Section Properties.

Context {N : JSNumber} {Tx : JSText}.

(** ** Expressions *)

Lemma opt_member_Ok (v : value) (name : string) :
  Ok v ?> name = Ok (opt_get v name).
Proof. unfold opt_member, opt_get; simpl. now destruct (nullish v). Qed.

Lemma member_Ok (v : value) (name : string) :
  nullish v = false -> Ok v ~> name = Ok (Get v name).
Proof. intros H. unfold member; simpl. now rewrite H. Qed.

Lemma js_or_Ok (v : value) (b : expr) :
  Ok v ||| b = if truthy v then Ok v else b.
Proof. reflexivity. Qed.

Lemma opt_get_nullish (v : value) (name : string) :
  nullish v = true -> opt_get v name = JUndefined.
Proof. intros H. unfold opt_get. now rewrite H. Qed.

Lemma opt_get_Get (v : value) (name : string) :
  nullish v = false -> opt_get v name = Get v name.
Proof. intros H. unfold opt_get. now rewrite H. Qed.

Lemma truthy_not_nullish (v : value) : truthy v = true -> nullish v = false.
Proof. now destruct v. Qed.

Lemma truthy_opt_get (v : value) (name : string) :
  truthy (opt_get v name) = true -> nullish v = false.
Proof.
  destruct (nullish v) eqn:E; [|reflexivity].
  rewrite (opt_get_nullish _ _ E). discriminate.
Qed.

(** Chains of [||] over values that are at hand. *)
Lemma js_or_chain2 (a b d : value) :
  Ok a ||| Ok b ||| Ok d =
    Ok (if truthy a then a else if truthy b then b else d).
Proof.
  rewrite js_or_Ok.
  destruct (truthy a) eqn:Ea; rewrite js_or_Ok; [now rewrite Ea|].
  now destruct (truthy b).
Qed.

Lemma js_or_chain3 (a b c d : value) :
  Ok a ||| Ok b ||| Ok c ||| Ok d =
    Ok (if truthy a then a else if truthy b then b else if truthy c then c else d).
Proof.
  rewrite js_or_chain2.
  destruct (truthy a) eqn:Ea; [now rewrite js_or_Ok, Ea|].
  destruct (truthy b) eqn:Eb; [now rewrite js_or_Ok, Eb|].
  rewrite js_or_Ok. now destruct (truthy c).
Qed.

Lemma js_or_chain4 (a b c d e : value) :
  Ok a ||| Ok b ||| Ok c ||| Ok d ||| Ok e =
    Ok (if truthy a then a else if truthy b then b else if truthy c then c else
        if truthy d then d else e).
Proof.
  rewrite js_or_chain3.
  destruct (truthy a) eqn:Ea; [now rewrite js_or_Ok, Ea|].
  destruct (truthy b) eqn:Eb; [now rewrite js_or_Ok, Eb|].
  destruct (truthy c) eqn:Ec; [now rewrite js_or_Ok, Ec|].
  rewrite js_or_Ok. now destruct (truthy d).
Qed.

(** ** The extraction functions never throw *)

Ltac case_truthy :=
  repeat (match goal with
          | |- context [truthy ?v] => destruct (truthy v) eqn:?
          | |- context [nullish ?v] => destruct (nullish v) eqn:?
          end; cbn -[opt_get] in *; try discriminate;
          try match goal with
              | H1 : truthy ?v = true, H2 : nullish ?v = true |- _ =>
                  rewrite (truthy_not_nullish v H1) in H2; discriminate
              end).

Lemma extractTokenId_pure (nftMeta : value) :
  extractTokenId nftMeta = Ok (first_truthy (tokenId_candidates nftMeta)).
Proof.
  unfold extractTokenId, tokenId_candidates.
  rewrite !opt_member_Ok. apply js_or_chain4.
Qed.

Lemma extractImage_total (nftMeta : value) :
  exists v, extractImage nftMeta = Ok v.
Proof.
  unfold extractImage.
  rewrite !opt_member_Ok, js_or_chain4. eauto.
Qed.

Lemma extractNftMeta_total (ord : value) :
  exists v, extractNftMeta ord = Ok v.
Proof.
  unfold extractNftMeta, js_cond, index, opt_index.
  rewrite !opt_member_Ok.
  destruct (nullish ord) eqn:Hord.
  - rewrite !(opt_get_nullish ord _ Hord). cbn. eauto.
  - rewrite (member_Ok _ _ Hord), <- (opt_get_Get _ _ Hord).
    unfold js_or, rbind. cbn -[opt_get].
    case_truthy; eauto.
Qed.

Lemma falsy_has_no_index (v : value) (i : nat) :
  truthy v = false -> truthy (opt_get_index v i) = false.
Proof.
  destruct v as [| |b|n|s|l|f]; cbn; try reflexivity; try discriminate.
  destruct s; [reflexivity | discriminate].
Qed.

Lemma opt_index_Ok (v : value) (i : nat) :
  opt_index (Ok v) i = Ok (opt_get_index v i).
Proof. unfold opt_index, opt_get_index. cbn. now destruct (nullish v). Qed.

Lemma index_assets (ord : value) :
  truthy (opt_get ord "assets") = true ->
  index (Ok ord ~> "assets") 0 = Ok (opt_get_index (opt_get ord "assets") 0).
Proof.
  intros H. pose proof (truthy_opt_get _ _ H) as Hord.
  rewrite (member_Ok _ _ Hord), <- (opt_get_Get _ _ Hord).
  unfold index, opt_get_index. cbn [rbind].
  now rewrite (truthy_not_nullish _ H).
Qed.

(** extractNftMeta returns the first truthy one of criteria.metadata, asset,
    assets[0], item and items[0], and null when there is none. *)
Theorem extractNftMeta_first_truthy (ord : value) :
  extractNftMeta ord = Ok (first_truthy (nftMeta_candidates ord)).
Proof.
  unfold extractNftMeta, nftMeta_candidates, js_cond.
  rewrite !opt_member_Ok, opt_index_Ok. cbn [first_truthy rbind].
  rewrite js_or_Ok.
  destruct (truthy (opt_get (opt_get ord "criteria") "metadata")) eqn:E1;
    [repeat (rewrite js_or_Ok, E1); reflexivity|].
  rewrite js_or_Ok.
  destruct (truthy (opt_get ord "asset")) eqn:E2;
    [repeat (rewrite js_or_Ok, E2); reflexivity|].
  destruct (truthy (opt_get ord "assets")) eqn:E3.
  - rewrite (index_assets _ E3), js_or_Ok.
    destruct (truthy (opt_get_index (opt_get ord "assets") 0)) eqn:E4;
      [repeat (rewrite js_or_Ok, E4); reflexivity|].
    rewrite js_or_Ok.
    destruct (truthy (opt_get ord "item")) eqn:E5;
      [repeat (rewrite js_or_Ok, E5); reflexivity|].
    rewrite js_or_Ok.
    destruct (truthy (opt_get_index (opt_get ord "items") 0)); reflexivity.
  - rewrite (falsy_has_no_index _ 0 E3), js_or_Ok. cbn [truthy].
    rewrite js_or_Ok.
    destruct (truthy (opt_get ord "item")) eqn:E5;
      [repeat (rewrite js_or_Ok, E5); reflexivity|].
    rewrite js_or_Ok.
    destruct (truthy (opt_get_index (opt_get ord "items") 0)); reflexivity.
Qed.

Lemma rbind_Ok_inv {A B : Type} (r : result A) (k : A -> result B) (b : B) :
  rbind r k = Ok b -> exists a, r = Ok a /\ k a = Ok b.
Proof. destruct r as [a|e]; simpl; [eauto | discriminate]. Qed.

Lemma truthy_first_truthy (l : list value) :
  truthy (first_truthy l) = existsb truthy l.
Proof.
  induction l as [|v l IH]; simpl; [reflexivity|].
  destruct (truthy v) eqn:E; simpl; [exact E | exact IH].
Qed.

Lemma forallb_negb_existsb {A : Type} (f : A -> bool) (l : list A) :
  forallb (fun x => negb (f x)) l = negb (existsb f l).
Proof.
  induction l as [|x l IH]; simpl; [reflexivity|].
  rewrite IH. now destruct (f x).
Qed.

(** ** normalizeOrder *)

(** On an order that is neither null nor undefined the try block returns,
    with the first truthy candidate in each of its four fields. *)
Lemma normalizeOrder_try_Ok (order : value) :
  nullish order = false ->
  normalizeOrder_try order =
    Ok {| protocol :=
            first_truthy [Get order "protocol_data"; Get order "protocolData";
                          Get order "protocol"];
          maker := first_truthy [Get order "maker"; Get order "maker_address"; JObj []];
          orderHash := first_truthy [Get order "order_hash"; Get order "hash"];
          price := first_truthy (price_candidates order) |}.
Proof.
  intros Hord. unfold normalizeOrder_try, price_candidates.
  rewrite !(member_Ok _ _ Hord), !opt_member_Ok.
  rewrite js_or_chain4, js_or_chain3, !js_or_chain2.
  reflexivity.
Qed.

Lemma normalizeOrder_try_total (order : value) :
  nullish order = false -> exists n, normalizeOrder_try order = Ok n.
Proof. intros Hord. rewrite (normalizeOrder_try_Ok _ Hord). eauto. Qed.

Lemma normalizeOrder_maker (order : value) :
  nullish order = false ->
  maker (normalizeOrder order) =
    first_truthy [Get order "maker"; Get order "maker_address"; JObj []].
Proof.
  intros Hord. unfold normalizeOrder. now rewrite (normalizeOrder_try_Ok _ Hord).
Qed.

Lemma normalizeOrder_orderHash (order : value) :
  nullish order = false ->
  orderHash (normalizeOrder order) =
    first_truthy [Get order "order_hash"; Get order "hash"].
Proof.
  intros Hord. unfold normalizeOrder. now rewrite (normalizeOrder_try_Ok _ Hord).
Qed.

Lemma normalizeOrder_price (order : value) :
  nullish order = false ->
  price (normalizeOrder order) = first_truthy (price_candidates order).
Proof.
  intros Hord. unfold normalizeOrder. now rewrite (normalizeOrder_try_Ok _ Hord).
Qed.

Lemma maker_truthy (order : value) : truthy (maker (normalizeOrder order)) = true.
Proof.
  destruct (nullish order) eqn:Hord.
  - now destruct order.
  - rewrite (normalizeOrder_maker _ Hord). simpl.
    destruct (truthy (Get order "maker")) eqn:E1; [exact E1|].
    destruct (truthy (Get order "maker_address")) eqn:E2; [exact E2|reflexivity].
Qed.

(** ** normalize *)

(** The order is skipped exactly when no NftMeta or no tokenId resolves. *)
Lemma normalize_Skip_iff (proxy ord : value) :
  normalize proxy ord = Ok Skip <->
  (resolves (extractNftMeta ord) = false \/
   exists nftMeta, extractNftMeta ord = Ok nftMeta /\
                   resolves (extractTokenId nftMeta) = false).
Proof.
  unfold normalize.
  destruct (extractNftMeta_total ord) as [m Hm]. rewrite Hm. cbn [rbind resolves].
  destruct (truthy m) eqn:Em; cbn [negb].
  2:{ split; auto. }
  rewrite extractTokenId_pure.
  destruct (extractImage_total m) as [im Him]. rewrite Him. cbn [rbind resolves].
  destruct (truthy (first_truthy (tokenId_candidates m))) eqn:Et; cbn [negb].
  - split.
    + intros H.
      repeat (apply rbind_Ok_inv in H; destruct H as [? [_ H]]).
      discriminate.
    + intros [H | [m' [Hm' H]]]; [discriminate|].
      injection Hm' as <-. rewrite extractTokenId_pure in H. cbn [resolves] in H. congruence.
  - split; [|reflexivity].
    intros _. right. exists m. split; [reflexivity|].
    rewrite extractTokenId_pure. exact Et.
Qed.

Lemma process_order_Skip (w : world) (ord : value) (fuel : nat) (s : state) :
  normalize (PROXY_CONTRACT_ADDRESS w) ord = Ok Skip ->
  process_order w ord fuel s = Returned tt fuel s.
Proof. intros H. unfold process_order, bind, lift. now rewrite H. Qed.

(** ** Token identifiers *)

(** C5 (as amended).  extractTokenId reads identifier, token_id, tokenId and
    id in that order and returns the first truthy one, null when there is none;
    an order whose NftMeta resolved is skipped exactly when none of the four
    is truthy. *)
Theorem extractTokenId_first_truthy (proxy ord nftMeta : value) :
  extractNftMeta ord = Ok nftMeta ->
  truthy nftMeta = true ->
  extractTokenId nftMeta = Ok (first_truthy (tokenId_candidates nftMeta)) /\
  (normalize proxy ord = Ok Skip <->
   forallb (fun v => negb (truthy v)) (tokenId_candidates nftMeta) = true).
Proof.
  intros Hmeta Htruthy. split; [apply extractTokenId_pure|].
  rewrite normalize_Skip_iff, Hmeta. cbn [resolves].
  rewrite forallb_negb_existsb, <- truthy_first_truthy.
  split.
  - intros [H | [m [Hm H]]]; [congruence|].
    injection Hm as <-. rewrite extractTokenId_pure in H. cbn [resolves] in H.
    now rewrite H.
  - intros H. right. exists nftMeta. split; [reflexivity|].
    rewrite extractTokenId_pure. cbn [resolves].
    now destruct (truthy (first_truthy (tokenId_candidates nftMeta))).
Qed.

(** ** Skipped orders *)

(** C6.  An order for which no NftMeta resolves, or whose NftMeta yields no
    tokenId, is skipped: processing it leaves both counters and both request
    logs as they were (nothing is posted) and awaits nothing. *)
Theorem skipped_order_leaves_no_trace
    (w : world) (ord : value) (fuel : nat) (s : state) :
  resolves (extractNftMeta ord) = false \/
  (exists nftMeta, extractNftMeta ord = Ok nftMeta /\
                   resolves (extractTokenId nftMeta) = false) ->
  normalize (PROXY_CONTRACT_ADDRESS w) ord = Ok Skip /\
  process_order w ord fuel s = Returned tt fuel s.
Proof.
  intros H. apply normalize_Skip_iff with (proxy := PROXY_CONTRACT_ADDRESS w) in H.
  split; [exact H | now apply process_order_Skip].
Qed.

(** What a posted payload was made of. *)
Lemma normalize_Listing_inv (proxy ord : value) (p : payload) :
  normalize proxy ord = Ok (Listing p) ->
  exists nftMeta,
    extractNftMeta ord = Ok nftMeta /\ truthy nftMeta = true /\
    tokenId p = first_truthy (tokenId_candidates nftMeta) /\
    truthy (tokenId p) = true /\
    toLowerCase (Ok (maker (normalizeOrder ord)) ?> "address" |||
                 Ok (maker (normalizeOrder ord)) ||| Ok (JStr "unknown")) =
      Ok (sellerAddress p) /\
    (Ok (orderHash (normalizeOrder ord)) |||
     (let* t := to_string (tokenId p) in
      let* a := Ok (maker (normalizeOrder ord)) ?> "address" ||| Ok (JStr "unknown") in
      let* sa := to_string a in
      Ok (JStr (t ++ "-" ++ sa)))) = Ok (payload_orderHash p) /\
    marketplaceContract p = proxy /\
    Ok (price (normalizeOrder ord)) ??? Ok (JNum (num_of_nat 0)) = Ok (payload_price p).
Proof.
  unfold normalize. intros H.
  destruct (extractNftMeta_total ord) as [m Hm]. rewrite Hm in H. cbn [rbind] in H.
  destruct (truthy m) eqn:Em; cbn [negb] in H; [|discriminate].
  rewrite extractTokenId_pure in H.
  destruct (extractImage_total m) as [im Him]. rewrite Him in H. cbn [rbind] in H.
  destruct (truthy (first_truthy (tokenId_candidates m))) eqn:Et;
    cbn [negb] in H; [|discriminate].
  cbv zeta in H.
  apply rbind_Ok_inv in H as (pr & Hprice & H).
  apply rbind_Ok_inv in H as (sa & Hseller & H).
  apply rbind_Ok_inv in H as (so & Hso & H).
  apply rbind_Ok_inv in H as (oh & Hhash & H).
  apply rbind_Ok_inv in H as (im' & Him' & H).
  injection H as <-. cbn.
  exists m. repeat split; assumption.
Qed.

Lemma extractNftMeta_not_nullish (ord nftMeta : value) :
  extractNftMeta ord = Ok nftMeta -> truthy nftMeta = true -> nullish ord = false.
Proof.
  intros Hmeta Htruthy.
  destruct ord; try reflexivity; cbn in Hmeta; injection Hmeta as <-; discriminate.
Qed.

(** Inside [main], none of the four extraction functions throws: the three
    extractors because they read through [?.] only, normalizeOrder because of
    its catch, whose try block cannot throw either on an order that is neither
    null nor undefined. *)
Theorem extraction_never_throws (ord nftMeta : value) :
  (exists v, extractNftMeta ord = Ok v) /\
  (exists v, extractTokenId nftMeta = Ok v) /\
  (exists v, extractImage nftMeta = Ok v) /\
  (nullish ord = false -> normalizeOrder_try ord = Ok (normalizeOrder ord)).
Proof.
  split; [apply extractNftMeta_total|].
  split; [rewrite extractTokenId_pure; eauto|].
  split; [apply extractImage_total|].
  intros Hord. unfold normalizeOrder.
  destruct (normalizeOrder_try_total _ Hord) as [n ->]. reflexivity.
Qed.

(** ** The price *)

(** A posted payload whose order resolves no price carries the price 0. *)
Theorem unresolved_price_defaults_to_zero (proxy ord : value) (p : payload) :
  normalize proxy ord = Ok (Listing p) ->
  existsb truthy (price_candidates ord) = false ->
  payload_price p = JNum (num_of_nat 0).
Proof.
  intros H Hnone.
  destruct (normalize_Listing_inv _ _ _ H)
    as (nftMeta & Hmeta & Htruthy & _ & _ & _ & _ & _ & Hprice).
  pose proof (extractNftMeta_not_nullish _ _ Hmeta Htruthy) as Hord.
  rewrite (normalizeOrder_price _ Hord) in Hprice.
  rewrite <- truthy_first_truthy in Hnone.
  unfold js_coalesce, rbind in Hprice.
  assert (first_truthy (price_candidates ord) = JNull) as E.
  { clear Hprice. induction (price_candidates ord) as [|v l IH]; [reflexivity|].
    cbn [first_truthy] in *. destruct (truthy v) eqn:Ev; [congruence|].
    now apply IH. }
  rewrite E in Hprice. cbn in Hprice. now injection Hprice as <-.
Qed.

(** ** The seller *)

(** The sellerAddress of a posted payload is what toLowerCase returned for
    the maker's address, or for the maker itself when it is a bare string: it
    holds no letter A-Z, and when that string is ASCII text, as a hexadecimal
    address is, it is the same text with the letters A-Z lowered. *)
Theorem sellerAddress_is_lowercase (proxy ord : value) (p : payload) :
  normalize proxy ord = Ok (Listing p) ->
  all_chars (fun c => negb (capital c)) (sellerAddress p) = true /\
  exists s,
    sellerAddress p = to_lower s /\
    (all_chars ascii_char s = true -> sellerAddress p = lowercase s) /\
    (Get (maker (normalizeOrder ord)) "address" = JStr s \/
     maker (normalizeOrder ord) = JStr s).
Proof.
  intros H.
  destruct (normalize_Listing_inv _ _ _ H)
    as (nftMeta & _ & _ & _ & _ & Hseller & _ & _ & _).
  unfold toLowerCase in Hseller.
  apply rbind_Ok_inv in Hseller as (v & Hv & Hseller).
  destruct v as [| |b|n|s|l|f]; try discriminate.
  injection Hseller as <-.
  split; [apply to_lower_no_capital|].
  exists s. split; [reflexivity|]. split; [apply to_lower_ascii|].
  pose proof (maker_truthy ord) as Hmk.
  pose proof (truthy_not_nullish _ Hmk) as Hmn.
  rewrite opt_member_Ok, (opt_get_Get _ _ Hmn), !js_or_Ok in Hv.
  destruct (truthy (Get (maker (normalizeOrder ord)) "address")) eqn:Ea;
    rewrite js_or_Ok in Hv.
  - rewrite Ea in Hv. left. congruence.
  - rewrite Hmk in Hv. right. congruence.
Qed.

(** C1 (what the code does instead).  For an order that yields an NftMeta and
    a tokenId but has neither a maker nor a maker_address, or whose maker is an
    object without an address field, no payload is built at all: the fallback
    of line 81 is an object, the default of line 159 is never reached,
    toLowerCase is called on that object and a TypeError is thrown. *)
Theorem unresolved_seller_throws (proxy ord nftMeta : value) :
  extractNftMeta ord = Ok nftMeta ->
  truthy nftMeta = true ->
  resolves (extractTokenId nftMeta) = true ->
  (truthy (Get ord "maker") = false /\ truthy (Get ord "maker_address") = false) \/
  (exists fields, Get ord "maker" = JObj fields /\ own fields "address" = None) ->
  normalize proxy ord = Throw TypeError.
Proof.
  intros Hmeta Htruthy Htok Hmaker.
  pose proof (extractNftMeta_not_nullish _ _ Hmeta Htruthy) as Hord.
  assert (exists fields, maker (normalizeOrder ord) = JObj fields /\
                         own fields "address" = None) as (fields & Hmk & Hown).
  { rewrite (normalizeOrder_maker _ Hord). cbn [first_truthy].
    destruct Hmaker as [[H1 H2] | (fields & H1 & H2)].
    - rewrite H1, H2. now exists [].
    - rewrite H1. cbn [truthy]. now exists fields. }
  unfold normalize. rewrite Hmeta. cbn [rbind]. rewrite Htruthy. cbn [negb].
  rewrite extractTokenId_pure in *. cbn [resolves rbind] in *.
  destruct (extractImage_total nftMeta) as [im Him]. rewrite Him. cbn [rbind].
  rewrite Htok. cbn [negb]. cbv zeta. rewrite Hmk.
  unfold js_coalesce at 1. cbn [rbind].
  rewrite opt_member_Ok. unfold opt_get. cbn [nullish Get]. rewrite Hown.
  destruct (nullish (price (normalizeOrder ord))); reflexivity.
Qed.

(** ** postOrderToBackend *)

Lemma postOrderToBackend_answered (w : world) (p : payload) (fuel : nat) (s : state) :
  postOrderToBackend w p (S fuel) s =
    Returned (verdict (backend w (length (posts s)) p)) fuel (log_post p s).
Proof.
  unfold postOrderToBackend, fetch_backend, bind, get_state, put_state, await, verdict.
  cbn. now destruct (postOrderToBackend_try _).
Qed.

Lemma postOrderToBackend_pending (w : world) (p : payload) (s : state) :
  postOrderToBackend w p 0 s = Pending (log_post p s).
Proof. reflexivity. Qed.

Lemma verdict_Response (status : nat) (b : body) :
  verdict (Response status b) =
    ok status &&
    match b with
    | BodyJson v => truthy (opt_get v "success")
    | BodyMalformed => false
    end.
Proof.
  unfold verdict, postOrderToBackend_try.
  destruct (ok status); cbn [negb andb]; [|reflexivity].
  rewrite opt_member_Ok. cbn [rbind].
  destruct b as [v|]; [|reflexivity].
  now destruct (truthy (opt_get v "success")).
Qed.

Lemma verdict_true_iff (o : fetch_outcome) : verdict o = true <-> backend_accepts o.
Proof.
  unfold backend_accepts. split.
  - destruct o as [|status [v|]]; [discriminate| |];
      rewrite verdict_Response; intros H; apply andb_true_iff in H as [Hok Hs];
      [now exists status, v | discriminate].
  - intros (status & v & -> & Hok & Hs).
    rewrite verdict_Response, Hok, Hs. reflexivity.
Qed.

Lemma verdict_false_iff (o : fetch_outcome) : verdict o = false <-> backend_fails o.
Proof.
  unfold backend_fails. split.
  - intros H. destruct o as [|status b]; [now left|right].
    rewrite verdict_Response in H. apply andb_false_iff in H as [Hok | Hs].
    + left. now exists status, b.
    + right. destruct b as [v|]; [right; now exists status, v | left; now exists status].
  - intros [-> | [(status & b & -> & Hok) | [(status & ->) | (status & v & -> & Hs)]]];
      [reflexivity | rewrite verdict_Response ..].
    + now rewrite Hok.
    + apply andb_false_r.
    + rewrite Hs. apply andb_false_r.
Qed.

Lemma process_order_Listing (w : world) (ord : value) (p : payload)
    (fuel : nat) (s : state) :
  normalize (PROXY_CONTRACT_ADDRESS w) ord = Ok (Listing p) ->
  process_order w ord (S fuel) s =
    let sent := verdict (backend w (length (posts s)) p) in
    Returned tt fuel
      {| cursor := cursor s;
         totalScanned := S (totalScanned s);
         totalSent := if sent then S (totalSent s) else totalSent s;
         fetches := fetches s;
         posts := posts s ++ [p] |}.
Proof.
  intros H. unfold process_order. unfold bind at 1. unfold lift. rewrite H.
  unfold bind at 1. unfold incr_totalScanned, bind at 1, get_state, put_state.
  unfold bind at 1. rewrite postOrderToBackend_answered. cbn.
  destruct (verdict _); reflexivity.
Qed.

(** C8.  postOrderToBackend never throws; it returns false exactly when the
    transport fails, the status is not a success, the body cannot be parsed or
    the body has no truthy success flag, and true exactly when a parsed body
    of a successful response carries one.  Either way the order has been
    counted as scanned, it is counted as sent only on true, and the loop goes
    on with the next order. *)
Theorem forward_false_iff_backend_failure
    (w : world) (ord : value) (rest : list value) (p : payload)
    (fuel : nat) (s : state) :
  normalize (PROXY_CONTRACT_ADDRESS w) ord = Ok (Listing p) ->
  exists (sent : bool) (s1 s2 : state),
    postOrderToBackend w p (S fuel) s = Returned sent fuel s1 /\
    (sent = false <-> backend_fails (backend w (length (posts s)) p)) /\
    (sent = true <-> backend_accepts (backend w (length (posts s)) p)) /\
    process_order w ord (S fuel) s = Returned tt fuel s2 /\
    totalScanned s2 = S (totalScanned s) /\
    totalSent s2 = (if sent then S (totalSent s) else totalSent s) /\
    posts s2 = (posts s ++ [p])%list /\
    for_of (ord :: rest) (process_order w) (S fuel) s =
      for_of rest (process_order w) fuel s2.
Proof.
  intros H.
  exists (verdict (backend w (length (posts s)) p)).
  eexists. eexists.
  split; [apply postOrderToBackend_answered|].
  split; [apply verdict_false_iff|].
  split; [apply verdict_true_iff|].
  split; [apply (process_order_Listing _ _ _ _ _ H)|].
  cbn. repeat split.
  unfold bind. now rewrite (process_order_Listing _ _ _ _ _ H).
Qed.

(** ** The synthesized order hash *)

Lemma nonempty_of_truthy (a : string) : truthy (JStr a) = true -> a <> "".
Proof. intros H ->. discriminate. Qed.

(** C4 (as amended).  When an order is posted, neither order_hash nor hash
    resolves and the maker has a truthy address field, the posted orderHash is
    the tokenId, a hyphen, and then that address exactly as received;
    sellerAddress is what toLowerCase returned for the same address. *)
Theorem orderHash_synthesized_from_maker_address
    (proxy ord : value) (p : payload) :
  normalize proxy ord = Ok (Listing p) ->
  truthy (Get ord "order_hash") = false ->
  truthy (Get ord "hash") = false ->
  truthy (Get (maker (normalizeOrder ord)) "address") = true ->
  exists t a,
    to_string (tokenId p) = Ok t /\
    Get (maker (normalizeOrder ord)) "address" = JStr a /\ a <> "" /\
    sellerAddress p = to_lower a /\
    payload_orderHash p = JStr (t ++ "-" ++ a).
Proof.
  intros H Hoh Hh Ea.
  destruct (normalize_Listing_inv _ _ _ H)
    as (nftMeta & Hmeta & Htruthy & Htok & Htt & Hseller & Hhash & _ & _).
  pose proof (extractNftMeta_not_nullish _ _ Hmeta Htruthy) as Hord.
  rewrite (normalizeOrder_orderHash _ Hord) in Hhash. cbn [first_truthy] in Hhash.
  rewrite Hoh, Hh in Hhash. rewrite js_or_Ok in Hhash. cbn [truthy] in Hhash.
  pose proof (maker_truthy ord) as Hmk.
  pose proof (truthy_not_nullish _ Hmk) as Hmn.
  set (mk := maker (normalizeOrder ord)) in *. clearbody mk.
  rewrite opt_member_Ok, (opt_get_Get _ _ Hmn) in Hseller, Hhash.
  rewrite !js_or_Ok in Hseller. rewrite js_or_Ok in Hhash.
  apply rbind_Ok_inv in Hhash as (t & Ht & Hhash).
  exists t. rewrite Ea in Hseller, Hhash. cbv iota in Hseller, Hhash.
  rewrite js_or_Ok, Ea in Hseller.
  destruct (Get mk "address") as [| |b|n|a|l|f] eqn:Eaddr;
    cbn in Hseller; try discriminate.
  exists a. cbn in Hhash.
  injection Hseller as <-. injection Hhash as <-.
  repeat split; [exact Ht|]. now apply nonempty_of_truthy.
Qed.

(** ** Determinism *)

Lemma skipn_length_app {A : Type} (l l' : list A) :
  skipn (length l) (l ++ l') = l'.
Proof. induction l as [|x l IH]; simpl; [reflexivity | exact IH]. Qed.

Lemma skipn_length_self {A : Type} (l : list A) : skipn (length l) l = [].
Proof. induction l as [|x l IH]; simpl; [reflexivity | exact IH]. Qed.

(** What processing an order posts and throws is read off [normalize]. *)
Lemma process_order_forwarded (w : world) (ord : value) (fuel : nat) (s : state) :
  forwarded s (process_order w ord fuel s) =
    match normalize (PROXY_CONTRACT_ADDRESS w) ord with
    | Ok (Listing p) => [p]
    | _ => []
    end /\
  thrown (process_order w ord fuel s) =
    match normalize (PROXY_CONTRACT_ADDRESS w) ord with
    | Throw e => Some e
    | Ok _ => None
    end.
Proof.
  unfold forwarded.
  destruct (normalize (PROXY_CONTRACT_ADDRESS w) ord) as [[|p]|e] eqn:Hn.
  - rewrite (process_order_Skip _ _ _ _ Hn). cbn.
    now rewrite skipn_length_self.
  - destruct fuel as [|fuel].
    + unfold process_order, bind, lift. rewrite Hn. cbn.
      now rewrite skipn_length_app.
    + rewrite (process_order_Listing _ _ _ _ _ Hn). cbn.
      now rewrite skipn_length_app.
  - unfold process_order, bind, lift. rewrite Hn. cbn.
    now rewrite skipn_length_self.
Qed.

(** C9.  Normalising an order is deterministic and reads no mutable state:
    whatever the counters, the cursor, the request logs, the remaining budget
    and the behaviour of the two services, two runs of the loop body on one
    order (under one configuration) post the same payload or both skip the
    order, and throw alike. *)
Theorem normalization_is_deterministic
    (proxy : value)
    (opensea1 opensea2 : nat -> option string -> fetch_outcome)
    (backend1 backend2 : nat -> payload -> fetch_outcome)
    (ord : value) (fuel1 fuel2 : nat) (s1 s2 : state) :
  let w1 := {| PROXY_CONTRACT_ADDRESS := proxy;
               opensea := opensea1; backend := backend1 |} in
  let w2 := {| PROXY_CONTRACT_ADDRESS := proxy;
               opensea := opensea2; backend := backend2 |} in
  forwarded s1 (process_order w1 ord fuel1 s1) =
    forwarded s2 (process_order w2 ord fuel2 s2) /\
  thrown (process_order w1 ord fuel1 s1) =
    thrown (process_order w2 ord fuel2 s2).
Proof.
  intros w1 w2.
  destruct (process_order_forwarded w1 ord fuel1 s1) as [F1 T1].
  destruct (process_order_forwarded w2 ord fuel2 s2) as [F2 T2].
  rewrite F1, F2, T1, T2. split; reflexivity.
Qed.

(** ** Pagination *)

Lemma bind_Returned {A B : Type} (m : task A) (k : A -> task B)
    (fuel fuel' : nat) (s s' : state) (a : A) :
  m fuel s = Returned a fuel' s' -> bind m k fuel s = k a fuel' s'.
Proof. intros H. unfold bind. now rewrite H. Qed.

Lemma process_order_returns (w : world) (ord : value) (n : normalization) (s : state) :
  normalize (PROXY_CONTRACT_ADDRESS w) ord = Ok n ->
  exists k s',
    (forall fuel, process_order w ord (k + fuel) s = Returned tt fuel s') /\
    cursor s' = cursor s /\ fetches s' = fetches s.
Proof.
  intros H. destruct n as [|p].
  - exists 0, s. split; [|split; reflexivity].
    intros fuel. now apply process_order_Skip.
  - eexists 1, _. split; [|split].
    + intros fuel. cbn [Nat.add]. apply (process_order_Listing _ _ _ _ _ H).
    + reflexivity.
    + reflexivity.
Qed.

Lemma for_of_returns (w : world) (orders : list value) :
  Forall (fun o => exists n, normalize (PROXY_CONTRACT_ADDRESS w) o = Ok n) orders ->
  forall s, exists k s',
    (forall fuel, for_of orders (process_order w) (k + fuel) s = Returned tt fuel s') /\
    cursor s' = cursor s /\ fetches s' = fetches s.
Proof.
  induction 1 as [|ord orders [n Hn] _ IH]; intros s.
  - exists 0, s. repeat split.
  - destruct (process_order_returns w ord n s Hn) as (k1 & s1 & H1 & Hc1 & Hf1).
    destruct (IH s1) as (k2 & s2 & H2 & Hc2 & Hf2).
    exists (k1 + k2), s2. split; [|split; congruence].
    intros fuel. cbn [for_of]. rewrite <- Nat.add_assoc.
    rewrite (bind_Returned _ _ _ _ _ _ _ (H1 (k2 + fuel))). apply H2.
Qed.

Lemma lift_Ok {A : Type} (r : result A) (a : A) (fuel : nat) (s : state) :
  r = Ok a -> lift r fuel s = Returned a fuel s.
Proof. now intros ->. Qed.

Lemma cursor_ok_printable (c : value) :
  cursor_ok c ->
  (exists str, (let* v := Ok c ||| Ok (JStr "null") in to_string v) = Ok str) /\
  request_param c = Ok (cursor_param c).
Proof.
  unfold request_param, encodeURIComponent.
  intros [-> | (x & -> & Hx & Hwf)]; cbn.
  - split; [eauto|reflexivity].
  - destruct (x =? "") eqn:E; [apply String.eqb_eq in E; contradiction|].
    cbn. rewrite Hwf. split; [eauto|reflexivity].
Qed.

Lemma fetchOrders_page (w : world) (s : state) (status : nat) (page : value) (fuel : nat) :
  cursor_ok (cursor s) ->
  opensea w (length (fetches s)) (cursor_param (cursor s)) =
    Response status (BodyJson page) ->
  ok status = true ->
  fetchOrders w (cursor s) (S fuel) s =
    Returned page fuel (log_fetch (cursor_param (cursor s)) s).
Proof.
  intros Hc Hres Hok.
  destruct (cursor_ok_printable _ Hc) as [_ Hparam].
  unfold fetchOrders.
  rewrite (bind_Returned _ _ _ _ _ _ _ (lift_Ok _ _ _ _ Hparam)).
  unfold fetch_opensea, bind, get_state, put_state, await. cbn.
  rewrite Hres, Hok. reflexivity.
Qed.

Lemma carries_orders_length (proxy page : value) :
  carries_orders proxy page ->
  exists len, Ok page ?> "orders" ?> "length" = Ok len /\ truthy len = true.
Proof.
  intros (ord & rest & Horders & _).
  assert (nullish page = false) as Hpage by (destruct page; try reflexivity; discriminate).
  rewrite !opt_member_Ok, (opt_get_Get _ _ Hpage), Horders.
  eexists. split; [reflexivity|].
  cbn. now rewrite num_of_nat_falsy.
Qed.

Lemma carries_orders_iterate (proxy page : value) :
  carries_orders proxy page ->
  exists orders,
    (let* o := Ok page ~> "orders" in iterate o) = Ok orders /\
    Forall (fun o => exists n, normalize proxy o = Ok n) orders.
Proof.
  intros (ord & rest & Horders & Hall).
  assert (nullish page = false) as Hpage by (destruct page; try reflexivity; discriminate).
  exists (ord :: rest). split; [|exact Hall].
  rewrite (member_Ok _ _ Hpage), Horders. reflexivity.
Qed.

Lemma main_loop_turn (w : world) (s : state) (page nx : value) (status : nat) :
  cursor_ok (cursor s) ->
  opensea w (length (fetches s)) (cursor_param (cursor s)) =
    Response status (BodyJson page) ->
  ok status = true ->
  carries_orders (PROXY_CONTRACT_ADDRESS w) page ->
  next_cursor page = Ok nx ->
  exists k s',
    (forall n fuel,
        main_loop w (S n) (S (k + fuel)) s =
          if truthy nx then main_loop w n fuel s' else Returned tt fuel s') /\
    cursor s' = nx /\
    fetches s' = (fetches s ++ [cursor_param (cursor s)])%list.
Proof.
  intros Hc Hres Hok Hpage Hnext.
  destruct (cursor_ok_printable _ Hc) as [[str Hstr] _].
  destruct (carries_orders_length _ _ Hpage) as (len & Hlen & Hlen_truthy).
  destruct (carries_orders_iterate _ _ Hpage) as (orders & Hiter & Hall).
  destruct (for_of_returns w orders Hall (log_fetch (cursor_param (cursor s)) s))
    as (k & s2 & Hfor & Hcur & Hfetches).
  exists k.
  exists {| cursor := nx; totalScanned := totalScanned s2; totalSent := totalSent s2;
            fetches := fetches s2; posts := posts s2 |}.
  split; [|split; [reflexivity | exact Hfetches]].
  intros n fuel. cbn [main_loop].
  unfold bind at 1. unfold get_state at 1.
  rewrite (bind_Returned _ _ _ _ _ _ _ (lift_Ok _ _ _ _ Hstr)).
  rewrite (bind_Returned _ _ _ _ _ _ _ (fetchOrders_page w s status page _ Hc Hres Hok)).
  rewrite (bind_Returned _ _ _ _ _ _ _ (lift_Ok _ _ _ _ Hlen)).
  rewrite Hlen_truthy. cbn [negb].
  rewrite (bind_Returned _ _ _ _ _ _ _ (lift_Ok _ _ _ _ Hiter)).
  rewrite (bind_Returned _ _ _ _ _ _ _ (Hfor fuel)).
  rewrite (bind_Returned _ _ _ _ _ _ _ (lift_Ok _ _ _ _ Hnext)).
  unfold bind at 1. unfold set_cursor, bind, get_state, put_state.
  destruct (truthy nx); reflexivity.
Qed.

Lemma next_cursor_total (page : value) :
  nullish page = false -> exists nx, next_cursor page = Ok nx.
Proof.
  intros Hpage. unfold next_cursor. rewrite !(member_Ok _ _ Hpage).
  unfold js_or, rbind. cbv beta iota.
  destruct (truthy (Get page "next")) eqn:E1; cbv beta iota; rewrite ?E1; [eauto|].
  destruct (truthy (Get page "cursor")) eqn:E2; cbv beta iota; rewrite ?E2; eauto.
Qed.

Lemma carries_orders_not_nullish (proxy page : value) :
  carries_orders proxy page -> nullish page = false.
Proof.
  intros (ord & rest & Horders & _). destruct page; try reflexivity; discriminate.
Qed.

Lemma main_loop_pages (w : world) (before : list (value * string)) (last : value) :
  Forall (linked (PROXY_CONTRACT_ADDRESS w)) before ->
  carries_orders (PROXY_CONTRACT_ADDRESS w) last ->
  resolves (next_cursor last) = false ->
  forall s,
    cursor_ok (cursor s) ->
    (forall i page,
        nth_error (map fst before ++ [last]) i = Some page ->
        forall param, exists status,
          ok status = true /\
          opensea w (length (fetches s) + i) param = Response status (BodyJson page)) ->
    exists k s',
      (forall n fuel, length before < n ->
                      main_loop w n (k + fuel) s = Returned tt fuel s') /\
      fetches s' =
        (fetches s ++ cursor_param (cursor s) :: map (fun pc => Some (snd pc)) before)%list.
Proof.
  intros Hbefore Hlast Hend.
  induction Hbefore as [|[page c] before (Hpage & Hnext & Hc & Hwf) _ IH];
    intros s Hcur Hserved.
  - destruct (next_cursor_total last (carries_orders_not_nullish _ _ Hlast))
      as [nx Hnx].
    rewrite Hnx in Hend. cbn [resolves] in Hend.
    destruct (Hserved 0 last eq_refl (cursor_param (cursor s)))
      as (status & Hok & Hres).
    rewrite Nat.add_0_r in Hres.
    destruct (main_loop_turn w s last nx status Hcur Hres Hok Hlast Hnx)
      as (k & s' & Hturn & _ & Hfetches).
    exists (S k), s'. split; [|exact Hfetches].
    intros n fuel Hn. destruct n as [|n]; [inversion Hn|].
    cbn [Nat.add]. rewrite Hturn, Hend. reflexivity.
  - cbn [fst snd] in *.
    destruct (Hserved 0 page eq_refl (cursor_param (cursor s)))
      as (status & Hok & Hres).
    rewrite Nat.add_0_r in Hres.
    destruct (main_loop_turn w s page (JStr c) status Hcur Hres Hok Hpage Hnext)
      as (k1 & s1 & Hturn & Hcur1 & Hfetches1).
    destruct (IH s1) as (k2 & s2 & Hrest & Hfetches2).
    + right. exists c. repeat split; assumption.
    + intros i page' Hi param.
      destruct (Hserved (S i) page' Hi param) as (status' & Hok' & Hres').
      exists status'. split; [exact Hok'|].
      rewrite Hfetches1, length_app. cbn [length].
      now replace (length (fetches s) + 1 + i) with (length (fetches s) + S i) by lia.
    + exists (S (k1 + k2)), s2. split.
      * intros n fuel Hn. destruct n as [|n]; [inversion Hn|].
        cbn [Nat.add]. rewrite <- Nat.add_assoc, Hturn.
        assert (truthy (JStr c) = true) as ->.
        { cbn. destruct (c =? "") eqn:E; [apply String.eqb_eq in E; contradiction|reflexivity]. }
        apply Hrest. cbn [length] in Hn. lia.
      * rewrite Hfetches2, Hfetches1, Hcur1. cbn [cursor_param map snd].
        now rewrite <- app_assoc.
Qed.

(** C7 (as amended).  When OpenSea serves a finite sequence of pages, each
    listing at least one order and every order normalising without a fault,
    every page but the last handing on a non-empty cursor string that holds no
    lone surrogate (one that encodeURIComponent accepts) and the last handing
    on none, the loop requests each page exactly once, in order, the first
    without a cursor and every later one with the cursor of the page before
    it; it then stops and prints its totals, however many more responses
    would be available. *)
Theorem pagination_fetches_each_page_once
    (w : world) (before : list (value * string)) (last : value) :
  serves w (map fst before ++ [last]) ->
  Forall (linked (PROXY_CONTRACT_ADDRESS w)) before ->
  carries_orders (PROXY_CONTRACT_ADDRESS w) last ->
  resolves (next_cursor last) = false ->
  exists fuel0 s,
    (forall fuel, fuel0 <= fuel -> main w fuel = Done s) /\
    fetches s = None :: map (fun pc => Some (snd pc)) before /\
    length (fetches s) = length (map fst before ++ [last]).
Proof.
  intros Hserves Hbefore Hlast Hend.
  destruct (main_loop_pages w before last Hbefore Hlast Hend initial)
    as (k & s & Hrun & Hfetches).
  - now left.
  - intros i page Hi param. cbn [initial fetches length Nat.add].
    exact (Hserves i page Hi param).
  - exists (Nat.max k (length before)), s. split; [|split].
    + intros fuel Hfuel. unfold main.
      replace fuel with (k + (fuel - k)) at 2 by lia.
      rewrite Hrun by lia. reflexivity.
    + exact Hfetches.
    + rewrite Hfetches. cbn [initial cursor cursor_param fetches app length].
      now rewrite length_app, !length_map, Nat.add_1_r.
Qed.

(** ** Soft ends of the loop *)

Lemma fetchOrders_initial (w : world) (fuel : nat) :
  fetchOrders w JNull (S fuel) initial =
    match opensea w 0 None with
    | TransportError => Thrown FetchFailed (log_fetch None initial)
    | Response status b =>
        if negb (ok status) then Returned JNull fuel (log_fetch None initial)
        else
          match b with
          | BodyJson v => Returned v fuel (log_fetch None initial)
          | BodyMalformed => Thrown JsonSyntaxError (log_fetch None initial)
          end
    end.
Proof.
  unfold fetchOrders, bind, lift, fetch_opensea, get_state, put_state, await.
  cbn.
  destruct (opensea w 0 None) as [|status b]; [reflexivity|].
  destruct (negb (ok status)); [reflexivity|].
  destruct b; reflexivity.
Qed.

(** A first response with a status outside 200-299 ends the run normally,
    with both totals at 0 and no second request (scenario D). *)
Theorem non_success_status_ends_run
    (w : world) (status : nat) (b : body) (fuel : nat) :
  opensea w 0 None = Response status b ->
  ok status = false ->
  main w (S fuel) = Done (log_fetch None initial).
Proof.
  intros Hres Hok. unfold main. cbn [main_loop].
  unfold bind at 1, get_state at 1.
  rewrite (bind_Returned _ _ _ _ _ _ "null" (lift_Ok _ _ _ _ eq_refl)).
  unfold bind at 1. cbn [initial cursor].
  change (fetchOrders w JNull (S fuel)
            {| cursor := JNull; totalScanned := 0; totalSent := 0;
               fetches := []; posts := [] |})
    with (fetchOrders w JNull (S fuel) initial).
  rewrite fetchOrders_initial, Hres, Hok. reflexivity.
Qed.

(** A first response whose parsed body lists no orders ends the run normally
    as well. *)
Theorem page_without_orders_ends_run
    (w : world) (status : nat) (data : value) (fuel : nat) :
  opensea w 0 None = Response status (BodyJson data) ->
  resolves (Ok data ?> "orders" ?> "length") = false ->
  main w (S fuel) = Done (log_fetch None initial).
Proof.
  intros Hres Hlen. unfold main. cbn [main_loop].
  unfold bind at 1, get_state at 1.
  rewrite (bind_Returned _ _ _ _ _ _ "null" (lift_Ok _ _ _ _ eq_refl)).
  unfold bind at 1. cbn [initial cursor].
  change (fetchOrders w JNull (S fuel)
            {| cursor := JNull; totalScanned := 0; totalSent := 0;
               fetches := []; posts := [] |})
    with (fetchOrders w JNull (S fuel) initial).
  rewrite fetchOrders_initial, Hres.
  destruct (negb (ok status)); [reflexivity|].
  rewrite !opt_member_Ok in *. cbn [resolves] in Hlen.
  unfold bind, lift. rewrite Hlen. reflexivity.
Qed.

(** ** The loop bound *)

Lemma frugal_bind {A B : Type} (m : task A) (k : A -> task B) :
  frugal m -> (forall a, frugal (k a)) -> frugal (bind m k).
Proof.
  intros Hm Hk fuel s b fuel' s'. unfold bind.
  destruct (m fuel s) as [a fuel1 s1| |] eqn:E; [|discriminate..].
  intros H. apply Hm in E. apply Hk in H. lia.
Qed.

Lemma frugal_ret {A : Type} (a : A) : frugal (ret a).
Proof. intros fuel s a' fuel' s' H. injection H; intros; subst; lia. Qed.

Lemma frugal_lift {A : Type} (r : result A) : frugal (lift r).
Proof.
  intros fuel s a' fuel' s'. unfold lift. destruct r; [|discriminate].
  intros H. injection H; intros; subst; lia.
Qed.

Lemma frugal_get_state : frugal get_state.
Proof. intros fuel s a' fuel' s' H. injection H; intros; subst; lia. Qed.

Lemma frugal_put_state (s0 : state) : frugal (put_state s0).
Proof. intros fuel s a' fuel' s' H. injection H; intros; subst; lia. Qed.

Lemma frugal_await {A : Type} (a : A) : frugal (await a).
Proof.
  intros fuel s a' fuel' s'. unfold await. destruct fuel; [discriminate|].
  intros H. injection H; intros; subst; lia.
Qed.

Lemma frugal_process_order (w : world) (ord : value) : frugal (process_order w ord).
Proof.
  unfold process_order.
  apply frugal_bind; [apply frugal_lift | intros [|p]]; [apply frugal_ret|].
  apply frugal_bind.
  { unfold incr_totalScanned. apply frugal_bind; [apply frugal_get_state|].
    intros s. apply frugal_put_state. }
  intros _. apply frugal_bind.
  - unfold postOrderToBackend. apply frugal_bind.
    + unfold fetch_backend. apply frugal_bind; [apply frugal_get_state | intros s].
      apply frugal_bind; [apply frugal_put_state | intros _; apply frugal_await].
    + intros res. destruct (postOrderToBackend_try res); apply frugal_ret.
  - intros [|]; [|apply frugal_ret].
    unfold incr_totalSent. apply frugal_bind; [apply frugal_get_state|].
    intros s. apply frugal_put_state.
Qed.

Lemma frugal_for_of {A : Type} (l : list A) (body : A -> task unit) :
  (forall x, frugal (body x)) -> frugal (for_of l body).
Proof.
  intros Hbody. induction l as [|x l IH]; cbn [for_of].
  - apply frugal_ret.
  - apply frugal_bind; [apply Hbody | intros _; exact IH].
Qed.

(** fetchOrders returns only once a response has been delivered. *)
Lemma fetchOrders_spends (w : world) (c : value) (fuel : nat) (s : state)
    (data : value) (fuel' : nat) (s' : state) :
  fetchOrders w c fuel s = Returned data fuel' s' -> fuel' < fuel.
Proof.
  unfold fetchOrders, bind, lift.
  destruct (if truthy c then _ else _) as [param|e]; [|discriminate].
  unfold fetch_opensea, bind, get_state, put_state, await.
  destruct fuel as [|fuel]; [discriminate|].
  destruct (opensea w _ _) as [|status b]; [discriminate|].
  destruct (negb (ok status)).
  - intros H. injection H; intros; subst; lia.
  - destruct b; [|discriminate]. intros H. injection H; intros; subst; lia.
Qed.

Lemma bind_ext_on {A B : Type} (m : task A) (k k' : A -> task B)
    (fuel : nat) (s : state) :
  (forall a fuel' s', m fuel s = Returned a fuel' s' -> k a fuel' s' = k' a fuel' s') ->
  bind m k fuel s = bind m k' fuel s.
Proof.
  intros H. unfold bind. destruct (m fuel s) as [a fuel' s'| |]; [|reflexivity..].
  now apply H.
Qed.

(** The bound on the turns of the loop is never what stops a run: any two
    bounds above the budget give the same run. *)
Lemma main_loop_bound (w : world) (fuel : nat) :
  forall n m s, fuel < n -> fuel < m -> main_loop w n fuel s = main_loop w m fuel s.
Proof.
  induction fuel as [fuel IH] using lt_wf_ind.
  intros [|n] [|m] s Hn Hm; try lia.
  cbn [main_loop].
  apply bind_ext_on. intros s0 f0 s0' H0. injection H0; intros; subst.
  apply bind_ext_on. intros ? f1 s1 H1. apply frugal_lift in H1 as Hf1.
  apply bind_ext_on. intros data f2 s2 H2. apply fetchOrders_spends in H2.
  apply bind_ext_on. intros len f3 s3 H3. apply frugal_lift in H3.
  destruct (negb (truthy len)); [reflexivity|].
  apply bind_ext_on. intros orders f4 s4 H4. apply frugal_lift in H4.
  apply bind_ext_on. intros ? f5 s5 H5.
  apply (frugal_for_of _ _ (frugal_process_order w)) in H5.
  apply bind_ext_on. intros next f6 s6 H6. apply frugal_lift in H6.
  apply bind_ext_on. intros ? f7 s7 H7.
  assert (f7 <= f6) as Hf7.
  { revert H7. unfold set_cursor, bind, get_state, put_state.
    intros H7. injection H7; intros; subst; lia. }
  destruct (negb (truthy next)); [reflexivity|].
  apply IH; lia.
Qed.

Corollary main_any_bound (w : world) (fuel n : nat) :
  fuel < n ->
  main w fuel =
    match main_loop w n fuel initial with
    | Returned _ _ s => Done s
    | Thrown e s => Fatal e s
    | Pending s => Running s
    end.
Proof.
  intros Hn. unfold main.
  now rewrite (main_loop_bound w fuel (S fuel) n initial) by lia.
Qed.

(** ** The counters *)

Lemma keeps_bind {A B : Type} (m : task A) (k : A -> task B) :
  keeps m -> (forall a, keeps (k a)) -> keeps (bind m k).
Proof.
  intros Hm Hk fuel s Hs. unfold bind.
  specialize (Hm fuel s Hs).
  destruct (m fuel s) as [a fuel' s'|e s'|s']; cbn in *; [|assumption..].
  now apply Hk.
Qed.

Lemma keeps_ret {A : Type} (a : A) : keeps (ret a).
Proof. intros fuel s Hs. exact Hs. Qed.

Lemma keeps_lift {A : Type} (r : result A) : keeps (lift r).
Proof. intros fuel s Hs. unfold lift. now destruct r. Qed.

Lemma keeps_get_state : keeps get_state.
Proof. intros fuel s Hs. exact Hs. Qed.

Lemma keeps_set_cursor (c : value) : keeps (set_cursor c).
Proof. intros fuel s Hs. exact Hs. Qed.

Lemma keeps_fetchOrders (w : world) (c : value) : keeps (fetchOrders w c).
Proof.
  intros fuel s Hs. unfold fetchOrders, bind, lift.
  destruct (if truthy c then _ else _) as [param|e]; [|exact Hs].
  unfold fetch_opensea, bind, get_state, put_state, await.
  destruct fuel as [|fuel]; [exact Hs|].
  destruct (opensea w _ _) as [|status b]; [exact Hs|].
  destruct (negb (ok status)); [exact Hs|].
  destruct b; exact Hs.
Qed.

Lemma keeps_process_order (w : world) (ord : value) : keeps (process_order w ord).
Proof.
  intros fuel s [Hle Hlen].
  destruct (normalize (PROXY_CONTRACT_ADDRESS w) ord) as [[|p]|e] eqn:Hn.
  - rewrite (process_order_Skip _ _ _ _ Hn). now split.
  - destruct fuel as [|fuel].
    + unfold process_order, bind, lift. rewrite Hn. cbn.
      unfold counters_ok. cbn. rewrite length_app. cbn. lia.
    + rewrite (process_order_Listing _ _ _ _ _ Hn). cbn.
      unfold counters_ok. cbn. rewrite length_app. cbn.
      destruct (verdict _); lia.
  - unfold process_order, bind, lift. rewrite Hn. now split.
Qed.

Lemma keeps_for_of {A : Type} (l : list A) (body : A -> task unit) :
  (forall x, keeps (body x)) -> keeps (for_of l body).
Proof.
  intros Hbody. induction l as [|x l IH]; cbn [for_of].
  - apply keeps_ret.
  - apply keeps_bind; [apply Hbody | intros _; exact IH].
Qed.

Lemma keeps_main_loop (w : world) (n : nat) : keeps (main_loop w n).
Proof.
  induction n as [|n IH]; cbn [main_loop].
  - intros fuel s Hs. exact Hs.
  - apply keeps_bind; [apply keeps_get_state | intros s].
    apply keeps_bind; [apply keeps_lift | intros _].
    apply keeps_bind; [apply keeps_fetchOrders | intros data].
    apply keeps_bind; [apply keeps_lift | intros len].
    destruct (negb (truthy len)); [apply keeps_ret|].
    apply keeps_bind; [apply keeps_lift | intros orders].
    apply keeps_bind;
      [apply keeps_for_of; intros ord; apply keeps_process_order | intros _].
    apply keeps_bind; [apply keeps_lift | intros next].
    apply keeps_bind; [apply keeps_set_cursor | intros _].
    destruct (negb (truthy next)); [apply keeps_ret | exact IH].
Qed.

Lemma final_state_main (w : world) (fuel : nat) :
  final_state (main w fuel) = run_state (main_loop w (S fuel) fuel initial).
Proof. unfold main. now destruct (main_loop w (S fuel) fuel initial). Qed.

(** C10.  However far a run has got (it has printed its totals, it has
    failed, or it is waiting at one of its awaits for any number of responses
    delivered so far), totalSent is between 0 and totalScanned, and
    totalScanned is the number of payloads posted: an order is counted as
    sent only after it has been counted as scanned and posted. *)
Theorem totalSent_le_totalScanned (w : world) (fuel : nat) :
  0 <= totalSent (final_state (main w fuel)) /\
  totalSent (final_state (main w fuel)) <= totalScanned (final_state (main w fuel)) /\
  totalScanned (final_state (main w fuel)) = length (posts (final_state (main w fuel))).
Proof.
  rewrite final_state_main.
  assert (counters_ok initial) as H0 by (split; cbn; lia).
  destruct (keeps_main_loop w (S fuel) fuel initial H0) as [Hle Hlen].
  split; [lia|]. split; assumption.
Qed.

(** ** The request URL *)

Lemma decode_step (c : ascii) (rest : string) :
  decode (if unreserved c then String c rest else percent_encode c rest) =
    String c (decode rest).
Proof. destruct c as [[] [] [] [] [] [] [] []]; reflexivity. Qed.

Lemma decode_escape (s : string) : decode (escape s) = s.
Proof.
  induction s as [|c s IH]; [reflexivity|].
  cbn [escape].
  destruct (unreserved c) eqn:E.
  - pose proof (decode_step c (escape s)) as H. rewrite E in H.
    rewrite H, IH. reflexivity.
  - pose proof (decode_step c (escape s)) as H. rewrite E in H.
    rewrite H, IH. reflexivity.
Qed.

Lemma safe_step (c : ascii) (rest : string) :
  all_chars uri_safe (if unreserved c then String c rest else percent_encode c rest) =
    all_chars uri_safe rest.
Proof. destruct c as [[] [] [] [] [] [] [] []]; reflexivity. Qed.

Lemma escape_safe (s : string) : all_chars uri_safe (escape s) = true.
Proof.
  induction s as [|c s IH]; [reflexivity|].
  cbn [escape].
  pose proof (safe_step c (escape s)) as H.
  destruct (unreserved c); rewrite H; exact IH.
Qed.

Lemma escape_inj (s1 s2 : string) : escape s1 = escape s2 -> s1 = s2.
Proof.
  intros H. rewrite <- (decode_escape s1), H. apply decode_escape.
Qed.

Lemma append_inj_l (a b c : string) : a ++ b = a ++ c -> b = c.
Proof.
  induction a as [|x a IH]; cbn; [auto|].
  intros H. injection H as H. auto.
Qed.

Lemma append_self (a b : string) : a = a ++ b -> b = "".
Proof.
  induction a as [|x a IH]; cbn; [auto|].
  intros H. injection H as H. auto.
Qed.

(** The request URL carries the cursor faithfully: for one contract address,
    two cursors give the same URL exactly when they give the same [cursor]
    parameter (none for a falsy cursor, the printed cursor otherwise).  Escaping
    loses nothing, and a URL with a cursor is never one without. *)
Theorem request_url_determines_cursor (address : string) (cursor1 cursor2 : value) :
  fetchOrders_url address cursor1 = fetchOrders_url address cursor2 <->
  request_param cursor1 = request_param cursor2.
Proof.
  unfold fetchOrders_url, request_param, encodeURIComponent. cbv zeta.
  set (base := _ ++ address).
  assert (forall a b : string, Ok a = Ok b -> a = b) as Hinj
    by (intros a b E; now injection E).
  destruct (truthy cursor1), (truthy cursor2).
  - destruct (to_string cursor1) as [s1|e1], (to_string cursor2) as [s2|e2];
      cbn [rbind];
      try destruct (isWellFormed s1); try destruct (isWellFormed s2);
      cbn [rbind]; split; intros H; try discriminate; try congruence.
    apply Hinj, append_inj_l, (append_inj_l "&cursor=") in H.
    apply escape_inj in H. now subst.
  - destruct (to_string cursor1) as [s1|e1]; cbn [rbind];
      try destruct (isWellFormed s1);
      cbn [rbind]; split; intros H; try discriminate.
    apply Hinj in H. symmetry in H. apply append_self in H. discriminate.
  - destruct (to_string cursor2) as [s2|e2]; cbn [rbind];
      try destruct (isWellFormed s2);
      cbn [rbind]; split; intros H; try discriminate.
    apply Hinj, append_self in H. discriminate.
  - split; reflexivity.
Qed.

(** Whatever the cursor holds, it adds one parameter to the URL and nothing
    else: the URL is the one without a cursor followed by [&cursor=] and a
    component made of unreserved characters and escapes only. *)
Theorem cursor_cannot_add_parameters
    (address : string) (cursor : value) (url : string) :
  fetchOrders_url address cursor = Ok url ->
  truthy cursor = true ->
  exists base encoded,
    fetchOrders_url address JNull = Ok base /\
    url = base ++ "&cursor=" ++ encoded /\
    all_chars uri_safe encoded = true.
Proof.
  unfold fetchOrders_url, encodeURIComponent. cbv zeta.
  intros H Ht. rewrite Ht in H.
  destruct (to_string cursor) as [s|]; [|discriminate].
  cbn [rbind] in H. destruct (isWellFormed s); [|discriminate].
  cbn [rbind] in H. injection H as <-.
  eexists. exists (escape s).
  split; [reflexivity|]. split; [reflexivity|]. apply escape_safe.
Qed.

(** ** The payload, field by field *)

Lemma extractImage_pure (nftMeta : value) :
  extractImage nftMeta = Ok (first_truthy (image_candidates nftMeta)).
Proof.
  unfold extractImage, image_candidates.
  rewrite !opt_member_Ok. apply js_or_chain4.
Qed.

Lemma seller_expression (ord : value) :
  Ok (maker (normalizeOrder ord)) ?> "address" |||
  Ok (maker (normalizeOrder ord)) ||| Ok (JStr "unknown") = Ok (seller_value ord).
Proof.
  pose proof (maker_truthy ord) as Hmk.
  pose proof (truthy_not_nullish _ Hmk) as Hmn.
  unfold seller_value. cbv zeta.
  rewrite opt_member_Ok, (opt_get_Get _ _ Hmn), js_or_chain2, Hmk.
  reflexivity.
Qed.

Lemma falsy_first_truthy (l : list value) :
  truthy (first_truthy l) = false -> first_truthy l = JNull.
Proof.
  induction l as [|v l IH]; cbn [first_truthy]; [reflexivity|].
  destruct (truthy v) eqn:Ev; [congruence | exact IH].
Qed.

(** [normalize], step by step, on an order whose NftMeta and tokenId resolve. *)
Lemma normalize_resolved (proxy ord nftMeta tok : value) :
  extractNftMeta ord = Ok nftMeta -> truthy nftMeta = true ->
  extractTokenId nftMeta = Ok tok -> truthy tok = true ->
  normalize proxy ord =
    let n := normalizeOrder ord in
    let* sellerAddress := toLowerCase (Ok (seller_value ord)) in
    let* orderHash :=
      Ok (orderHash n) |||
      (let* t := to_string tok in
       let* a := Ok (maker n) ?> "address" ||| Ok (JStr "unknown") in
       let* sa := to_string a in
       Ok (JStr (t ++ "-" ++ sa))) in
    Ok (Listing {|
      tokenId := tok;
      payload_price :=
        if nullish (price n) then JNum (num_of_nat 0) else price n;
      sellerAddress := sellerAddress;
      seaportOrder := if truthy (protocol n) then protocol n else ord;
      payload_orderHash := orderHash;
      image := first_truthy (image_candidates nftMeta);
      marketplaceContract := proxy
    |}).
Proof.
  intros Hmeta Htruthy Htok Ht.
  unfold normalize. rewrite Hmeta. cbn [rbind]. rewrite Htruthy. cbn [negb].
  rewrite Htok. cbn [rbind]. rewrite extractImage_pure. cbn [rbind].
  rewrite Ht. cbn [negb]. cbv zeta.
  rewrite seller_expression.
  unfold js_coalesce at 1. cbn [rbind].
  destruct (nullish (price (normalizeOrder ord))); cbn [rbind];
    (destruct (toLowerCase (Ok (seller_value ord))) as [sa|e]; [|reflexivity]);
    cbn [rbind]; rewrite (js_or_Ok (protocol (normalizeOrder ord)));
    destruct (truthy (protocol (normalizeOrder ord))); cbn [rbind];
    match goal with
    | |- rbind ?h _ = rbind ?h _ => destruct h as [oh|e]; [|reflexivity]
    end;
    cbn [rbind]; rewrite js_or_Ok;
    destruct (truthy (first_truthy (image_candidates nftMeta))) eqn:Ei;
    cbn [rbind]; try reflexivity;
    rewrite (falsy_first_truthy _ Ei); reflexivity.
Qed.

Lemma normalizeOrder_protocol (order : value) :
  nullish order = false ->
  protocol (normalizeOrder order) = first_truthy (protocol_candidates order).
Proof.
  intros Hord. unfold normalizeOrder. now rewrite (normalizeOrder_try_Ok _ Hord).
Qed.

Lemma toLowerCase_Ok_inv (v : value) (sa : string) :
  toLowerCase (Ok v) = Ok sa -> exists a, v = JStr a.
Proof. destruct v; try discriminate. eauto. Qed.

(** An order is posted exactly when its NftMeta and its tokenId resolve, the
    seller resolves to a string, and the order has a hash of its own or a
    tokenId that can be printed into one; it is skipped when the NftMeta or the
    tokenId does not resolve, and in every other case line 159 or line 161
    throws. *)
Theorem order_is_listed_iff (proxy ord nftMeta tok : value) :
  extractNftMeta ord = Ok nftMeta ->
  extractTokenId nftMeta = Ok tok ->
  ((exists p, normalize proxy ord = Ok (Listing p)) <->
   truthy nftMeta = true /\ truthy tok = true /\
   (exists a, seller_value ord = JStr a) /\
   (truthy (orderHash (normalizeOrder ord)) = true \/ exists t, to_string tok = Ok t)).
Proof.
  intros Hmeta Htok. split.
  - intros [p Hp].
    destruct (truthy nftMeta) eqn:Em.
    2:{ assert (normalize proxy ord = Ok Skip) as E.
        { apply normalize_Skip_iff. left. rewrite Hmeta. exact Em. }
        congruence. }
    destruct (truthy tok) eqn:Et.
    2:{ assert (normalize proxy ord = Ok Skip) as E.
        { apply normalize_Skip_iff. right. exists nftMeta. split; [exact Hmeta|].
          rewrite Htok. exact Et. }
        congruence. }
    rewrite (normalize_resolved _ _ _ _ Hmeta Em Htok Et) in Hp. cbv zeta in Hp.
    apply rbind_Ok_inv in Hp as (sa & Hsa & Hp).
    apply rbind_Ok_inv in Hp as (oh & Hoh & _).
    repeat split.
    + now apply toLowerCase_Ok_inv in Hsa.
    + rewrite js_or_Ok in Hoh.
      destruct (truthy (orderHash (normalizeOrder ord))); [now left|right].
      apply rbind_Ok_inv in Hoh as (t & Ht & _). eauto.
  - intros (Em & Et & [a Ha] & Hhash).
    rewrite (normalize_resolved _ _ _ _ Hmeta Em Htok Et). cbv zeta.
    rewrite Ha. cbn [toLowerCase rbind]. rewrite js_or_Ok.
    destruct (truthy (orderHash (normalizeOrder ord))) eqn:Eh; [cbn [rbind]; eauto|].
    destruct Hhash as [Hhash | [t Ht]]; [discriminate|].
    rewrite Ht. cbn [rbind].
    pose proof (maker_truthy ord) as Hmk.
    rewrite opt_member_Ok, (opt_get_Get _ _ (truthy_not_nullish _ Hmk)), js_or_Ok.
    unfold seller_value in Ha. cbv zeta in Ha.
    destruct (truthy (Get (maker (normalizeOrder ord)) "address"));
      [rewrite Ha|]; cbn [rbind to_string]; eauto.
Qed.

(** The fields of a posted payload, read off the order: the tokenId and the
    image are what extractTokenId and extractImage found (the image null when
    none of its four places is truthy); seaportOrder is the first truthy one of
    protocol_data, protocolData and protocol, and the whole order when there is
    none; a truthy order_hash or hash, and a truthy price, are passed on as
    they are. *)
Theorem listing_fields_are_first_matches
    (proxy ord nftMeta tok : value) (p : payload) :
  extractNftMeta ord = Ok nftMeta ->
  extractTokenId nftMeta = Ok tok ->
  normalize proxy ord = Ok (Listing p) ->
  tokenId p = tok /\
  image p = first_truthy (image_candidates nftMeta) /\
  seaportOrder p =
    (if truthy (first_truthy (protocol_candidates ord))
     then first_truthy (protocol_candidates ord) else ord) /\
  (truthy (first_truthy (orderHash_candidates ord)) = true ->
   payload_orderHash p = first_truthy (orderHash_candidates ord)) /\
  (truthy (first_truthy (price_candidates ord)) = true ->
   payload_price p = first_truthy (price_candidates ord)).
Proof.
  intros Hmeta Htok Hp.
  destruct (normalize_Listing_inv _ _ _ Hp)
    as (m & Hm & Em & Htokp & Et & _).
  rewrite Hmeta in Hm. injection Hm as <-.
  assert (tokenId p = tok) as Etok.
  { rewrite extractTokenId_pure in Htok. injection Htok as <-. exact Htokp. }
  rewrite Etok in Et.
  pose proof (extractNftMeta_not_nullish _ _ Hmeta Em) as Hord.
  rewrite (normalize_resolved _ _ _ _ Hmeta Em Htok Et) in Hp. cbv zeta in Hp.
  apply rbind_Ok_inv in Hp as (sa & _ & Hp).
  apply rbind_Ok_inv in Hp as (oh & Hoh & Hp).
  injection Hp as <-. cbn [tokenId image seaportOrder payload_orderHash payload_price].
  rewrite (normalizeOrder_protocol _ Hord), (normalizeOrder_price _ Hord).
  rewrite (normalizeOrder_orderHash _ Hord) in Hoh.
  fold (orderHash_candidates ord) in Hoh.
  repeat split.
  - intros Eh. rewrite js_or_Ok, Eh in Hoh. now injection Hoh as <-.
  - intros Epr. now rewrite (truthy_not_nullish _ Epr).
Qed.

(** A parsed body whose orders has a truthy length and is neither an array
    nor a string (an object with a length field) passes the test of line 140
    and cannot be iterated: the [for] loop throws, and the run ends in the
    handler of line 185 with nothing posted and no totals printed. *)
Theorem non_iterable_orders_is_fatal
    (w : world) (status : nat) (data : value) (e : error) (fuel : nat) :
  opensea w 0 None = Response status (BodyJson data) ->
  ok status = true ->
  resolves (Ok data ?> "orders" ?> "length") = true ->
  iterate (Get data "orders") = Throw e ->
  main w (S fuel) = Fatal e (log_fetch None initial).
Proof.
  intros Hres Hok Hlen Hiter. unfold main. cbn [main_loop].
  unfold bind at 1, get_state at 1.
  rewrite (bind_Returned _ _ _ _ _ _ "null" (lift_Ok _ _ _ _ eq_refl)).
  unfold bind at 1. cbn [initial cursor].
  change (fetchOrders w JNull (S fuel)
            {| cursor := JNull; totalScanned := 0; totalSent := 0;
               fetches := []; posts := [] |})
    with (fetchOrders w JNull (S fuel) initial).
  rewrite fetchOrders_initial, Hres, Hok. cbn [negb].
  assert (nullish data = false) as Hdata.
  { destruct data; try reflexivity; rewrite !opt_member_Ok in Hlen; discriminate. }
  rewrite !opt_member_Ok in *. cbn [resolves] in Hlen.
  rewrite (member_Ok _ _ Hdata).
  unfold bind, lift. rewrite Hlen. cbn [negb rbind]. rewrite Hiter. reflexivity.
Qed.

(** ** Invariants of a run *)

Lemma triple_bind {A B : Type} (P : state -> Prop) (m : task A)
    (Q : A -> state -> Prop) (k : A -> task B) (R : B -> state -> Prop)
    (T D : state -> Prop) :
  triple P m Q T D -> (forall a, triple (Q a) (k a) R T D) ->
  triple P (bind m k) R T D.
Proof.
  intros Hm Hk fuel s Hs. unfold bind. specialize (Hm fuel s Hs).
  destruct (m fuel s) as [a fuel' s'|e s'|s']; [|assumption..].
  now apply Hk.
Qed.

Lemma triple_lift {A : Type} (P : state -> Prop) (r : result A) (T D : state -> Prop) :
  (forall s, P s -> T s) ->
  triple P (lift r) (fun _ s => P s) T D.
Proof. intros HT fuel s Hs. unfold lift. destruct r; auto. Qed.

(** The ways fetchOrders can end. *)
Lemma fetchOrders_cases (w : world) (c : value) (fuel : nat) (s : state) :
  (exists e, fetchOrders w c fuel s = Thrown e s) \/
  (exists param,
      request_param c = Ok param /\
      run_state (fetchOrders w c fuel s) = log_fetch param s).
Proof.
  unfold fetchOrders, bind, lift. fold (request_param c).
  destruct (request_param c) as [param|e]; [right|left; eauto].
  exists param. split; [reflexivity|].
  unfold fetch_opensea, bind, get_state, put_state, await.
  destruct fuel as [|fuel]; [reflexivity|].
  destruct (opensea w _ _) as [|status b]; [reflexivity|].
  destruct (negb (ok status)); [reflexivity|].
  destruct b; reflexivity.
Qed.

(** The ways the body of the loop can end. *)
Lemma process_order_cases (w : world) (ord : value) (fuel : nat) (s : state) :
  run_state (process_order w ord fuel s) = s \/
  exists p,
    normalize (PROXY_CONTRACT_ADDRESS w) ord = Ok (Listing p) /\
    ((fuel = 0 /\
      process_order w ord fuel s =
        Pending {| cursor := cursor s; totalScanned := S (totalScanned s);
                   totalSent := totalSent s; fetches := fetches s;
                   posts := posts s ++ [p] |}) \/
     (exists fuel',
        fuel = S fuel' /\
        process_order w ord fuel s =
          Returned tt fuel'
            {| cursor := cursor s; totalScanned := S (totalScanned s);
               totalSent := if verdict (backend w (length (posts s)) p)
                            then S (totalSent s) else totalSent s;
               fetches := fetches s; posts := posts s ++ [p] |})).
Proof.
  destruct (normalize (PROXY_CONTRACT_ADDRESS w) ord) as [[|p]|e] eqn:Hn.
  - left. now rewrite (process_order_Skip _ _ _ _ Hn).
  - right. exists p. split; [reflexivity|].
    destruct fuel as [|fuel].
    + left. split; [reflexivity|]. unfold process_order, bind, lift. now rewrite Hn.
    + right. exists fuel. split; [reflexivity|].
      apply (process_order_Listing _ _ _ _ _ Hn).
  - left. unfold process_order, bind, lift. now rewrite Hn.
Qed.

(** One proof for every property of the loop that is kept by a request, by
    the body of the [for] loop and by the assignment of the cursor. *)
Lemma main_loop_triple (w : world) (L I Q T D : state -> Prop) :
  (forall s, L s -> T s) ->
  (forall s, L s -> D s) ->
  (forall s, I s -> T s) ->
  (forall s, I s -> Q s) ->
  (forall s0, triple (fun s => L s /\ s = s0) (fetchOrders w (cursor s0))
                (fun _ s => I s) T D) ->
  (forall ord, triple I (process_order w ord) (fun _ s => I s) T D) ->
  (forall s next, I s ->
     Q (with_cursor next s) /\ (truthy next = true -> L (with_cursor next s))) ->
  forall n, triple L (main_loop w n) (fun _ s => Q s) T D.
Proof.
  intros HLT HLD HIT HIQ Hfetch Hbody Hnext.
  induction n as [|n IH]; cbn [main_loop].
  - intros fuel s Hs. now apply HLD.
  - assert (forall s0,
      triple (fun s => L s /\ s = s0)
        (lift (let* c := Ok (cursor s0) ||| Ok (JStr "null") in to_string c) ;;;
         data <- fetchOrders w (cursor s0) ;;
         len <- lift (Ok data ?> "orders" ?> "length") ;;
         (if negb (truthy len) then ret tt
          else
            orders <- lift (let* o := Ok data ~> "orders" in iterate o) ;;
            for_of orders (process_order w) ;;;
            next <- lift (Ok data ~> "next" ||| Ok data ~> "cursor" ||| Ok JNull) ;;
            set_cursor next ;;;
            (if negb (truthy next) then ret tt else main_loop w n)))
        (fun _ s => Q s) T D) as Hturn.
    { intros s0.
      apply triple_bind with (Q := fun _ s => L s /\ s = s0).
      { apply triple_lift. intros s [Hs _]. now apply HLT. }
      intros str. apply triple_bind with (Q := fun _ s => I s); [apply Hfetch|].
      intros data.
      apply triple_bind with (Q := fun _ s => I s);
        [apply (triple_lift I); exact HIT|].
      intros len. destruct (negb (truthy len)).
      { intros fuel s Hs. now apply HIQ. }
      apply triple_bind with (Q := fun _ s => I s);
        [apply (triple_lift I); exact HIT|].
      intros orders. apply triple_bind with (Q := fun _ s => I s).
      { induction orders as [|ord orders IHo]; cbn [for_of].
        - intros fuel s Hs. exact Hs.
        - apply triple_bind with (Q := fun _ s => I s); [apply Hbody|].
          intros u. exact IHo. }
      intros u. apply triple_bind with (Q := fun _ s => I s);
        [apply (triple_lift I); exact HIT|].
      intros next.
      apply triple_bind
        with (Q := fun _ s => Q s /\ (truthy next = true -> L s)).
      { intros fuel s Hs. cbn. apply (Hnext s next Hs). }
      intros u'. destruct (truthy next) eqn:Et; cbn [negb].
      - intros fuel s [_ Hs]. apply IH. now apply Hs.
      - intros fuel s [Hs _]. exact Hs. }
    intros fuel s Hs. unfold bind at 1, get_state at 1.
    apply (Hturn s fuel s). now split.
Qed.

Lemma triple_run_state {A : Type} (L P : state -> Prop) (m : task A)
    (fuel : nat) (s : state) :
  triple L m (fun _ s' => P s') P P -> L s -> P (run_state (m fuel s)).
Proof.
  intros Hm Hs. specialize (Hm fuel s Hs). now destruct (m fuel s).
Qed.

(** *** What is posted *)

Lemma hyphenated_truthy (t sa : string) : truthy (JStr (t ++ "-" ++ sa)) = true.
Proof. now destruct t. Qed.

Lemma listing_well_formed (proxy ord : value) (p : payload) :
  normalize proxy ord = Ok (Listing p) -> well_formed proxy p.
Proof.
  intros H.
  destruct (normalize_Listing_inv _ _ _ H)
    as (nftMeta & _ & _ & _ & Htok & Hseller & Hhash & Hproxy & _).
  split; [exact Hproxy|]. split; [exact Htok|].
  assert (exists s, sellerAddress p = to_lower s) as [s Hs].
  { unfold toLowerCase in Hseller.
    apply rbind_Ok_inv in Hseller as (v & _ & Hseller).
    destruct v as [| |b|n|s|l|f]; try discriminate. injection Hseller as <-.
    now exists s. }
  split; [now exists s|]. split.
  - rewrite Hs. apply to_lower_no_capital.
  - rewrite js_or_Ok in Hhash.
    destruct (truthy (orderHash (normalizeOrder ord))) eqn:E.
    + injection Hhash as <-. exact E.
    + apply rbind_Ok_inv in Hhash as (t & _ & Hhash).
      apply rbind_Ok_inv in Hhash as (a & _ & Hhash).
      apply rbind_Ok_inv in Hhash as (sa & _ & Hhash).
      injection Hhash as <-. apply hyphenated_truthy.
Qed.

Lemma fetchOrders_keeps_posts (w : world) (c : value) (fuel : nat) (s : state) :
  posts (run_state (fetchOrders w c fuel s)) = posts s /\
  totalSent (run_state (fetchOrders w c fuel s)) = totalSent s.
Proof.
  destruct (fetchOrders_cases w c fuel s) as [[e ->] | (param & _ & ->)];
    split; reflexivity.
Qed.

Lemma triple_of_run_state {A : Type} (L P : state -> Prop) (m : task A) :
  (forall fuel s, L s -> P (run_state (m fuel s))) ->
  triple L m (fun _ s' => P s') P P.
Proof.
  intros H fuel s Hs. specialize (H fuel s Hs). now destruct (m fuel s).
Qed.

(** Whatever OpenSea and the backend do, every payload the backend is sent
    carries the configured proxy contract, a truthy tokenId, a sellerAddress
    that toLowerCase returned (no letter A-Z is left in it) and a truthy
    orderHash. *)
Theorem every_posted_payload_is_well_formed (w : world) (fuel : nat) :
  Forall (well_formed (PROXY_CONTRACT_ADDRESS w)) (posts (final_state (main w fuel))).
Proof.
  rewrite final_state_main.
  set (P := fun s : state => Forall (well_formed (PROXY_CONTRACT_ADDRESS w)) (posts s)).
  apply (triple_run_state P P); [|constructor].
  apply (main_loop_triple w P P P P P); try (intros; assumption).
  - intros s0. apply triple_of_run_state. intros fuel' s [Hs _]. unfold P.
    now rewrite (proj1 (fetchOrders_keeps_posts w (cursor s0) fuel' s)).
  - intros ord. apply triple_of_run_state. intros fuel' s Hs. unfold P.
    destruct (process_order_cases w ord fuel' s)
      as [-> | (p & Hn & [[_ ->] | (f & _ & ->)])]; [exact Hs| |];
      cbn [run_state posts]; apply Forall_app; (split; [exact Hs|]);
      constructor; [|constructor| |constructor];
      apply (listing_well_formed _ _ _ Hn).
  - intros s next Hs. split; [exact Hs | intros _; exact Hs].
Qed.

(** *** The count of accepted posts *)

Lemma accepted_from_app (w : world) (i : nat) (ps : list payload) (p : payload) :
  accepted_from w i (ps ++ [p]) =
    accepted_from w i ps + (if verdict (backend w (i + length ps) p) then 1 else 0).
Proof.
  revert i. induction ps as [|q ps IH]; intros i; cbn [accepted_from app length].
  - replace (i + 0) with i by lia. lia.
  - rewrite IH. replace (S i + length ps) with (i + S (length ps)) by lia. lia.
Qed.

(** When a run has ended, normally or in the handler of line 185, totalSent
    is exactly the number of posted payloads the backend accepted; while it is
    waiting, the answer to the last post may still be out. *)
Theorem totalSent_counts_accepted_posts (w : world) (fuel : nat) :
  match main w fuel with
  | Done s | Fatal _ s => totalSent s = accepted_from w 0 (posts s)
  | Running s => sent_ok w s
  end.
Proof.
  unfold main.
  assert (triple (sent_exact w) (main_loop w (S fuel))
            (fun _ s => sent_exact w s) (sent_exact w) (sent_ok w)) as H.
  { apply (main_loop_triple w (sent_exact w) (sent_exact w));
      try (intros; assumption); try (intros s Hs; now left).
    - intros s0 fuel' s [Hs _].
      destruct (fetchOrders_keeps_posts w (cursor s0) fuel' s) as [Hp Ht].
      unfold sent_exact, sent_ok in *.
      destruct (fetchOrders w (cursor s0) fuel' s); cbn [run_state] in *;
        rewrite ?Hp, Ht; auto.
    - intros ord fuel' s Hs. unfold sent_exact, sent_ok in *.
      destruct (process_order_cases w ord fuel' s)
        as [E | (p & Hn & [[_ ->] | (f & _ & ->)])].
      + destruct (process_order w ord fuel' s); cbn [run_state] in E; subst; auto.
      + right. cbn [totalSent posts]. now rewrite removelast_last.
      + cbn [totalSent posts]. rewrite accepted_from_app, Hs. cbn [Nat.add].
        destruct (verdict _); lia.
    - intros s next Hs. split; [exact Hs | intros _; exact Hs]. }
  specialize (H fuel initial eq_refl).
  destruct (main_loop w (S fuel) fuel initial); exact H.
Qed.

(** *** The requests *)

Lemma request_param_truthy (c : value) (param : option string) :
  truthy c = true -> request_param c = Ok param -> exists x, param = Some x.
Proof.
  unfold request_param. intros ->. destruct (to_string c) as [x|]; [|discriminate].
  cbn [rbind]. destruct (encodeURIComponent x); [|discriminate].
  cbn [rbind]. intros H. injection H as <-. eauto.
Qed.

(** Whatever OpenSea answers, the first request of a run carries no cursor
    and every later request carries one. *)
Theorem only_first_request_has_no_cursor (w : world) (fuel : nat) :
  first_only_without_cursor (fetches (final_state (main w fuel))).
Proof.
  rewrite final_state_main.
  set (P := fun s : state => first_only_without_cursor (fetches s)).
  set (I := fun s : state => exists cursors, fetches s = None :: map Some cursors).
  set (L := fun s : state =>
              (fetches s = [] /\ cursor s = JNull) \/
              (truthy (cursor s) = true /\ I s)).
  assert (forall s, I s -> P s) as HIP by (intros s Hs; now right).
  assert (forall s, L s -> P s) as HLP.
  { intros s [[Hs _] | [_ Hs]]; [now left | now apply HIP]. }
  apply (triple_run_state L P); [|left; split; reflexivity].
  apply (main_loop_triple w L I P P P); try assumption.
  - intros s0 fuel' s [Hs ->].
    destruct (fetchOrders_cases w (cursor s0) fuel' s0)
      as [[e ->] | (param & Hparam & E)]; [now apply HLP|].
    assert (I (log_fetch param s0)) as HI.
    { destruct Hs as [[Hf Hc] | [Hc [cs Hf]]]; unfold I; cbn [log_fetch fetches].
      - rewrite Hf. rewrite Hc in Hparam. injection Hparam as <-. now exists [].
      - destruct (request_param_truthy _ _ Hc Hparam) as [x ->].
        exists (cs ++ [x])%list. rewrite Hf, map_app. reflexivity. }
    destruct (fetchOrders w (cursor s0) fuel' s0); cbn [run_state] in E; subst;
      auto.
  - intros ord fuel' s Hs.
    assert (I (run_state (process_order w ord fuel' s))) as HI.
    { destruct (process_order_cases w ord fuel' s)
        as [-> | (p & _ & [[_ ->] | (f & _ & ->)])]; exact Hs. }
    destruct (process_order w ord fuel' s); cbn [run_state] in HI; auto.
  - intros s next Hs. split; [now apply HIP | intros Ht; right; now split].
Qed.

(** ** What a run posts *)

Lemma process_order_posts (w : world) (ord : value) (n : normalization) (s : state) :
  normalize (PROXY_CONTRACT_ADDRESS w) ord = Ok n ->
  exists k s',
    (forall fuel, process_order w ord (k + fuel) s = Returned tt fuel s') /\
    cursor s' = cursor s /\ fetches s' = fetches s /\
    posts s' = (posts s ++ listed (PROXY_CONTRACT_ADDRESS w) [ord])%list.
Proof.
  intros H. unfold listed. cbn [flat_map]. rewrite H, app_nil_r. destruct n as [|p].
  - exists 0, s. split; [|now rewrite app_nil_r].
    intros fuel. now apply process_order_Skip.
  - eexists 1, _.
    split; [intros fuel; cbn [Nat.add]; apply (process_order_Listing _ _ _ _ _ H)|].
    repeat split.
Qed.

Lemma listed_cons (proxy ord : value) (orders : list value) :
  listed proxy (ord :: orders) = (listed proxy [ord] ++ listed proxy orders)%list.
Proof. unfold listed. cbn [flat_map]. now rewrite app_nil_r. Qed.

Lemma for_of_posts (w : world) (orders : list value) :
  Forall (fun o => exists n, normalize (PROXY_CONTRACT_ADDRESS w) o = Ok n) orders ->
  forall s, exists k s',
    (forall fuel, for_of orders (process_order w) (k + fuel) s = Returned tt fuel s') /\
    cursor s' = cursor s /\ fetches s' = fetches s /\
    posts s' = (posts s ++ listed (PROXY_CONTRACT_ADDRESS w) orders)%list.
Proof.
  induction 1 as [|ord orders [n Hn] _ IH]; intros s.
  - exists 0, s. repeat split. cbn. now rewrite app_nil_r.
  - destruct (process_order_posts w ord n s Hn) as (k1 & s1 & H1 & Hc1 & Hf1 & Hp1).
    destruct (IH s1) as (k2 & s2 & H2 & Hc2 & Hf2 & Hp2).
    exists (k1 + k2), s2. split; [|repeat split; try congruence].
    + intros fuel. cbn [for_of]. rewrite <- Nat.add_assoc.
      rewrite (bind_Returned _ _ _ _ _ _ _ (H1 (k2 + fuel))). apply H2.
    + rewrite Hp2, Hp1, (listed_cons _ ord orders). now rewrite app_assoc.
Qed.

Lemma carries_orders_of (proxy page : value) :
  carries_orders proxy page ->
  (let* o := Ok page ~> "orders" in iterate o) = Ok (orders_of page) /\
  Forall (fun o => exists n, normalize proxy o = Ok n) (orders_of page).
Proof.
  intros (ord & rest & Horders & Hall).
  pose proof (carries_orders_not_nullish proxy page
                (ex_intro _ ord (ex_intro _ rest (conj Horders Hall)))) as Hpage.
  unfold orders_of. rewrite (member_Ok _ _ Hpage), Horders. now split.
Qed.

Lemma main_loop_turn_posts (w : world) (s : state) (page nx : value) (status : nat) :
  cursor_ok (cursor s) ->
  opensea w (length (fetches s)) (cursor_param (cursor s)) =
    Response status (BodyJson page) ->
  ok status = true ->
  carries_orders (PROXY_CONTRACT_ADDRESS w) page ->
  next_cursor page = Ok nx ->
  exists k s',
    (forall n fuel,
        main_loop w (S n) (S (k + fuel)) s =
          if truthy nx then main_loop w n fuel s' else Returned tt fuel s') /\
    cursor s' = nx /\
    fetches s' = (fetches s ++ [cursor_param (cursor s)])%list /\
    posts s' = (posts s ++ listed (PROXY_CONTRACT_ADDRESS w) (orders_of page))%list.
Proof.
  intros Hc Hres Hok Hpage Hnext.
  destruct (cursor_ok_printable _ Hc) as [[str Hstr] _].
  destruct (carries_orders_length _ _ Hpage) as (len & Hlen & Hlen_truthy).
  destruct (carries_orders_of _ _ Hpage) as (Hiter & Hall).
  destruct (for_of_posts w _ Hall (log_fetch (cursor_param (cursor s)) s))
    as (k & s2 & Hfor & Hcur & Hfetches & Hposts).
  exists k.
  exists {| cursor := nx; totalScanned := totalScanned s2; totalSent := totalSent s2;
            fetches := fetches s2; posts := posts s2 |}.
  split; [|split; [reflexivity | split; [exact Hfetches | exact Hposts]]].
  intros n fuel. cbn [main_loop].
  unfold bind at 1. unfold get_state at 1.
  rewrite (bind_Returned _ _ _ _ _ _ _ (lift_Ok _ _ _ _ Hstr)).
  rewrite (bind_Returned _ _ _ _ _ _ _ (fetchOrders_page w s status page _ Hc Hres Hok)).
  rewrite (bind_Returned _ _ _ _ _ _ _ (lift_Ok _ _ _ _ Hlen)).
  rewrite Hlen_truthy. cbn [negb].
  rewrite (bind_Returned _ _ _ _ _ _ _ (lift_Ok _ _ _ _ Hiter)).
  rewrite (bind_Returned _ _ _ _ _ _ _ (Hfor fuel)).
  rewrite (bind_Returned _ _ _ _ _ _ _ (lift_Ok _ _ _ _ Hnext)).
  unfold bind at 1. unfold set_cursor, bind, get_state, put_state.
  destruct (truthy nx); reflexivity.
Qed.

Lemma main_loop_pages_posts (w : world) (before : list (value * string)) (last : value) :
  Forall (linked (PROXY_CONTRACT_ADDRESS w)) before ->
  carries_orders (PROXY_CONTRACT_ADDRESS w) last ->
  resolves (next_cursor last) = false ->
  forall s,
    cursor_ok (cursor s) ->
    (forall i page,
        nth_error (map fst before ++ [last]) i = Some page ->
        forall param, exists status,
          ok status = true /\
          opensea w (length (fetches s) + i) param = Response status (BodyJson page)) ->
    exists k s',
      (forall n fuel, length before < n ->
                      main_loop w n (k + fuel) s = Returned tt fuel s') /\
      posts s' =
        (posts s ++
         listed (PROXY_CONTRACT_ADDRESS w)
           (flat_map orders_of (map fst before ++ [last])))%list.
Proof.
  intros Hbefore Hlast Hend.
  induction Hbefore as [|[page c] before (Hpage & Hnext & Hc & Hwf) _ IH];
    intros s Hcur Hserved.
  - destruct (next_cursor_total last (carries_orders_not_nullish _ _ Hlast))
      as [nx Hnx].
    rewrite Hnx in Hend. cbn [resolves] in Hend.
    destruct (Hserved 0 last eq_refl (cursor_param (cursor s)))
      as (status & Hok & Hres).
    rewrite Nat.add_0_r in Hres.
    destruct (main_loop_turn_posts w s last nx status Hcur Hres Hok Hlast Hnx)
      as (k & s' & Hturn & _ & _ & Hposts).
    exists (S k), s'. split.
    + intros n fuel Hn. destruct n as [|n]; [inversion Hn|].
      cbn [Nat.add]. rewrite Hturn, Hend. reflexivity.
    + rewrite Hposts. cbn [map app flat_map]. now rewrite app_nil_r.
  - cbn [fst snd] in *.
    destruct (Hserved 0 page eq_refl (cursor_param (cursor s)))
      as (status & Hok & Hres).
    rewrite Nat.add_0_r in Hres.
    destruct (main_loop_turn_posts w s page (JStr c) status Hcur Hres Hok Hpage Hnext)
      as (k1 & s1 & Hturn & Hcur1 & Hfetches1 & Hposts1).
    destruct (IH s1) as (k2 & s2 & Hrest & Hposts2).
    + right. exists c. repeat split; assumption.
    + intros i page' Hi param.
      destruct (Hserved (S i) page' Hi param) as (status' & Hok' & Hres').
      exists status'. split; [exact Hok'|].
      rewrite Hfetches1, length_app. cbn [length].
      now replace (length (fetches s) + 1 + i) with (length (fetches s) + S i) by lia.
    + exists (S (k1 + k2)), s2. split.
      * intros n fuel Hn. destruct n as [|n]; [inversion Hn|].
        cbn [Nat.add]. rewrite <- Nat.add_assoc, Hturn.
        assert (truthy (JStr c) = true) as ->.
        { cbn. destruct (c =? "") eqn:E; [apply String.eqb_eq in E; contradiction|reflexivity]. }
        apply Hrest. cbn [length] in Hn. lia.
      * rewrite Hposts2, Hposts1. cbn [map app flat_map fst].
        unfold listed. rewrite (flat_map_app _ (orders_of page)).
        now rewrite app_assoc.
Qed.

(** Under the conditions of the pagination theorem, what the backend has been
    sent when the run ends is exactly the payloads of the orders of all the
    pages, each once, in the order of the pages and of the orders in them. *)
Theorem pagination_posts_every_listing_once
    (w : world) (before : list (value * string)) (last : value) :
  serves w (map fst before ++ [last]) ->
  Forall (linked (PROXY_CONTRACT_ADDRESS w)) before ->
  carries_orders (PROXY_CONTRACT_ADDRESS w) last ->
  resolves (next_cursor last) = false ->
  exists fuel0 s,
    (forall fuel, fuel0 <= fuel -> main w fuel = Done s) /\
    posts s =
      listed (PROXY_CONTRACT_ADDRESS w) (flat_map orders_of (map fst before ++ [last])).
Proof.
  intros Hserves Hbefore Hlast Hend.
  destruct (main_loop_pages_posts w before last Hbefore Hlast Hend initial)
    as (k & s & Hrun & Hposts).
  - now left.
  - intros i page Hi param. cbn [initial fetches length Nat.add].
    exact (Hserves i page Hi param).
  - exists (Nat.max k (length before)), s. split; [|exact Hposts].
    intros fuel Hfuel. unfold main.
    replace fuel with (k + (fuel - k)) at 2 by lia.
    rewrite Hrun by lia. reflexivity.
Qed.

(** ** The backend seen from the run *)

Lemma forget_sent_inv (s1 s2 : state) :
  forget_sent s1 = forget_sent s2 ->
  cursor s1 = cursor s2 /\ totalScanned s1 = totalScanned s2 /\
  fetches s1 = fetches s2 /\ posts s1 = posts s2.
Proof. unfold forget_sent. intros H. injection H as -> -> -> ->. repeat split. Qed.

Lemma alike_bind {A B : Type} (m1 m2 : task A) (k1 k2 : A -> task B) :
  alike m1 m2 -> (forall a, alike (k1 a) (k2 a)) ->
  alike (bind m1 k1) (bind m2 k2).
Proof.
  intros Hm Hk fuel s1 s2 Hs. unfold bind. specialize (Hm fuel s1 s2 Hs).
  destruct (m1 fuel s1) as [a1 f1 t1|e1 t1|t1], (m2 fuel s2) as [a2 f2 t2|e2 t2|t2];
    cbn in Hm; try contradiction; try exact Hm.
  destruct Hm as (-> & -> & Ht). now apply Hk.
Qed.

Lemma alike_lift {A : Type} (r : result A) : alike (lift r) (lift r).
Proof. intros fuel s1 s2 Hs. unfold lift. destruct r; cbn; auto. Qed.

Lemma alike_ret {A : Type} (a : A) : alike (ret a) (ret a).
Proof. intros fuel s1 s2 Hs. cbn. auto. Qed.

Lemma alike_get_state {A : Type} (k1 k2 : state -> task A) :
  (forall s1 s2, forget_sent s1 = forget_sent s2 -> alike (k1 s1) (k2 s2)) ->
  alike (bind get_state k1) (bind get_state k2).
Proof. intros H fuel s1 s2 Hs. unfold bind, get_state. now apply H. Qed.

Lemma alike_fetchOrders (w : world) (b : nat -> payload -> fetch_outcome) (c : value) :
  alike (fetchOrders (with_backend w b) c) (fetchOrders w c).
Proof.
  unfold fetchOrders. apply alike_bind; [apply alike_lift|]. intros param.
  apply alike_bind.
  - intros fuel s1 s2 Hs.
    destruct (forget_sent_inv _ _ Hs) as (Hc & Hn & Hf & Hp).
    unfold fetch_opensea, bind, get_state, put_state, await.
    cbn [with_backend opensea]. rewrite Hf.
    destruct fuel as [|fuel]; cbn; unfold forget_sent; cbn; rewrite ?Hc, ?Hn, ?Hf, ?Hp; auto.
  - intros [|status body]; [apply alike_lift|].
    destruct (negb (ok status)); [apply alike_ret|].
    destruct body; [apply alike_ret|apply alike_lift].
Qed.

Lemma alike_process_order (w : world) (b : nat -> payload -> fetch_outcome) (ord : value) :
  alike (process_order (with_backend w b) ord) (process_order w ord).
Proof.
  unfold process_order. cbn [with_backend PROXY_CONTRACT_ADDRESS].
  apply alike_bind; [apply alike_lift|]. intros [|p]; [apply alike_ret|].
  intros fuel s1 s2 Hs.
  destruct (forget_sent_inv _ _ Hs) as (Hc & Hn & Hf & Hp).
  unfold incr_totalScanned, postOrderToBackend, fetch_backend, incr_totalSent,
    bind, get_state, put_state, await, ret.
  cbn [with_backend backend cursor totalScanned totalSent fetches posts].
  destruct fuel as [|fuel].
  - cbn. unfold forget_sent; cbn. now rewrite Hc, Hn, Hf, Hp.
  - destruct (postOrderToBackend_try (b _ p)) as [[|]|], (postOrderToBackend_try (backend w _ p)) as [[|]|];
      cbn; unfold forget_sent; cbn; rewrite Hc, Hn, Hf, Hp; auto.
Qed.

Lemma alike_for_of {A : Type} (l : list A) (body1 body2 : A -> task unit) :
  (forall x, alike (body1 x) (body2 x)) ->
  alike (for_of l body1) (for_of l body2).
Proof.
  intros Hbody. induction l as [|x l IH]; cbn [for_of]; [apply alike_ret|].
  apply alike_bind; [apply Hbody|]. intros _. exact IH.
Qed.

Lemma alike_set_cursor (c : value) : alike (set_cursor c) (set_cursor c).
Proof.
  intros fuel s1 s2 Hs.
  destruct (forget_sent_inv _ _ Hs) as (Hc & Hn & Hf & Hp).
  unfold set_cursor, bind, get_state, put_state. cbn. unfold forget_sent. cbn.
  now rewrite Hn, Hf, Hp.
Qed.

Lemma alike_main_loop (w : world) (b : nat -> payload -> fetch_outcome) (n : nat) :
  alike (main_loop (with_backend w b) n) (main_loop w n).
Proof.
  induction n as [|n IH]; cbn [main_loop]; [intros fuel s1 s2 Hs; exact Hs|].
  apply alike_get_state. intros t1 t2 Ht.
  destruct (forget_sent_inv _ _ Ht) as (Hc & _). rewrite Hc.
  apply alike_bind; [apply alike_lift|]. intros _.
  apply alike_bind; [apply alike_fetchOrders|]. intros data.
  apply alike_bind; [apply alike_lift|]. intros len.
  destruct (negb (truthy len)); [apply alike_ret|].
  apply alike_bind; [apply alike_lift|]. intros orders.
  apply alike_bind; [apply alike_for_of; intros ord; apply alike_process_order|]. intros _.
  apply alike_bind; [apply alike_lift|]. intros next.
  apply alike_bind; [apply alike_set_cursor|]. intros _.
  destruct (negb (truthy next)); [apply alike_ret|exact IH].
Qed.

(** What the backend answers changes totalSent and nothing else: with any
    other backend the run makes the same requests to OpenSea, posts the same
    payloads in the same order, counts the same orders as scanned and ends the
    same way after the same number of responses. *)
Theorem backend_answers_only_change_totalSent
    (w : world) (b : nat -> payload -> fetch_outcome) (fuel : nat) :
  forget_sent_outcome (main (with_backend w b) fuel) =
  forget_sent_outcome (main w fuel).
Proof.
  unfold main.
  pose proof (alike_main_loop w b (S fuel) fuel initial initial eq_refl) as H.
  destruct (main_loop (with_backend w b) (S fuel) fuel initial) as [a1 f1 t1|e1 t1|t1],
           (main_loop w (S fuel) fuel initial) as [a2 f2 t2|e2 t2|t2];
    cbn in H; try contradiction; cbn [forget_sent_outcome].
  - destruct H as (_ & _ & ->). reflexivity.
  - destruct H as (-> & ->). reflexivity.
  - now rewrite H.
Qed.

(** ** Runs that do not end *)

Lemma steady_bind {A B : Type} (m : task A) (k : A -> task B) :
  steady m -> (forall a, steady (k a)) -> steady (bind m k).
Proof.
  intros Hm Hk fuel s d. unfold bind. specialize (Hm fuel s d).
  destruct (m fuel s) as [a fuel' s'|e s'|s']; rewrite ?Hm; [apply Hk|reflexivity|exact I].
Qed.

Lemma steady_ret {A : Type} (a : A) : steady (ret a).
Proof. intros fuel s d. reflexivity. Qed.

Lemma steady_lift {A : Type} (r : result A) : steady (lift r).
Proof. intros fuel s d. unfold lift. destruct r; reflexivity. Qed.

Lemma steady_get_state : steady get_state.
Proof. intros fuel s d. reflexivity. Qed.

Lemma steady_put_state (s0 : state) : steady (put_state s0).
Proof. intros fuel s d. reflexivity. Qed.

Lemma steady_await {A : Type} (a : A) : steady (await a).
Proof. intros [|fuel] s d; [exact I|reflexivity]. Qed.

Lemma steady_fetchOrders (w : world) (c : value) : steady (fetchOrders w c).
Proof.
  unfold fetchOrders. apply steady_bind; [apply steady_lift|]. intros param.
  apply steady_bind.
  - unfold fetch_opensea. apply steady_bind; [apply steady_get_state|]. intros s0.
    apply steady_bind; [apply steady_put_state|]. intros _. apply steady_await.
  - intros [|status b]; [apply steady_lift|].
    destruct (negb (ok status)); [apply steady_ret|].
    destruct b; [apply steady_ret|apply steady_lift].
Qed.

Lemma steady_process_order (w : world) (ord : value) : steady (process_order w ord).
Proof.
  unfold process_order. apply steady_bind; [apply steady_lift|].
  intros [|p]; [apply steady_ret|].
  apply steady_bind.
  { unfold incr_totalScanned. apply steady_bind; [apply steady_get_state|].
    intros s0. apply steady_put_state. }
  intros _. apply steady_bind.
  { unfold postOrderToBackend. apply steady_bind.
    - unfold fetch_backend. apply steady_bind; [apply steady_get_state|]. intros s0.
      apply steady_bind; [apply steady_put_state|]. intros _. apply steady_await.
    - intros res. destruct (postOrderToBackend_try res); apply steady_ret. }
  intros [|]; [|apply steady_ret].
  unfold incr_totalSent. apply steady_bind; [apply steady_get_state|].
  intros s0. apply steady_put_state.
Qed.

Lemma steady_for_of {A : Type} (l : list A) (body : A -> task unit) :
  (forall x, steady (body x)) -> steady (for_of l body).
Proof.
  intros Hbody. induction l as [|x l IH]; cbn [for_of]; [apply steady_ret|].
  apply steady_bind; [apply Hbody|]. intros _. exact IH.
Qed.

Lemma steady_main_loop (w : world) (n : nat) : steady (main_loop w n).
Proof.
  induction n as [|n IH]; cbn [main_loop]; [intros fuel s d; exact I|].
  apply steady_bind; [apply steady_get_state|]. intros s0.
  apply steady_bind; [apply steady_lift|]. intros _.
  apply steady_bind; [apply steady_fetchOrders|]. intros data.
  apply steady_bind; [apply steady_lift|]. intros len.
  destruct (negb (truthy len)); [apply steady_ret|].
  apply steady_bind; [apply steady_lift|]. intros orders.
  apply steady_bind; [apply steady_for_of; intros ord; apply steady_process_order|].
  intros _. apply steady_bind; [apply steady_lift|]. intros next.
  apply steady_bind.
  { unfold set_cursor. apply steady_bind; [apply steady_get_state|].
    intros s1. apply steady_put_state. }
  intros _. destruct (negb (truthy next)); [apply steady_ret|exact IH].
Qed.

Lemma nonempty_truthy (c : string) : c <> "" -> truthy (JStr c) = true.
Proof.
  intros Hc. cbn. destruct (c =? "") eqn:E; [|reflexivity].
  apply String.eqb_eq in E. contradiction.
Qed.

(** While cursors are handed on, no budget of responses is enough for the
    loop to get through its turns. *)
Lemma main_loop_outlasts (w : world) (n : nat) :
  always_hands_on w ->
  forall s, cursor_ok (cursor s) ->
    exists k, forall d, exists s', main_loop w n (k + d) s = Pending s'.
Proof.
  intros Hw. induction n as [|n IH]; intros s Hs.
  - exists 0. intros d. exists s. reflexivity.
  - destruct (Hw (length (fetches s)) (cursor_param (cursor s)))
      as (status & page & c & Hok & Hres & Hpage & Hnext & Hc & Hwf).
    cbn [fst snd] in *.
    destruct (main_loop_turn w s page (JStr c) status Hs Hres Hok Hpage Hnext)
      as (k1 & s1 & Hturn & Hcur & _).
    destruct (IH s1) as [k2 Hrest].
    { right. exists c. repeat split; assumption. }
    exists (S (k1 + k2)). intros d. destruct (Hrest d) as [s' Hs'].
    exists s'. cbn [Nat.add]. rewrite <- Nat.add_assoc, Hturn.
    now rewrite (nonempty_truthy c Hc).
Qed.

(** Nothing in the loop bounds the number of pages: as long as OpenSea
    answers every request with a page of orders and a non-empty cursor
    without a lone surrogate (one that repeats itself, for one), the run never
    ends, whatever the number of responses delivered; it neither prints its
    totals nor fails. *)
Theorem run_never_ends_while_cursors_are_handed_on (w : world) (fuel : nat) :
  always_hands_on w -> exists s, main w fuel = Running s.
Proof.
  intros Hw. unfold main.
  destruct (main_loop_outlasts w (S fuel) Hw initial) as [k Hk]; [now left|].
  destruct (Hk fuel) as [s' Hs'].
  pose proof (steady_main_loop w (S fuel) fuel initial k) as H.
  destruct (main_loop w (S fuel) fuel initial) as [a f s|e s|s].
  - rewrite Nat.add_comm in H. congruence.
  - rewrite Nat.add_comm in H. congruence.
  - now exists s.
Qed.

(** ** A cursor that cannot be escaped *)

Lemma main_loop_rejects_cursor (w : world) (n fuel : nat) (s : state) (c : string) :
  cursor s = JStr c -> c <> "" -> isWellFormed c = false ->
  main_loop w (S n) fuel s = Thrown URIError s.
Proof.
  intros Hcur Hc Hwf. cbn [main_loop].
  unfold bind at 1, get_state at 1. rewrite Hcur.
  assert (truthy (JStr c) = true) as Ht by now apply nonempty_truthy.
  assert ((let* v := Ok (JStr c) ||| Ok (JStr "null") in to_string v) = Ok c) as Hlog
    by (rewrite js_or_Ok, Ht; reflexivity).
  rewrite (bind_Returned _ _ _ _ _ _ _ (lift_Ok _ _ fuel s Hlog)).
  unfold fetchOrders, bind, lift.
  rewrite Ht. cbn [to_string rbind]. unfold encodeURIComponent.
  rewrite Hwf. reflexivity.
Qed.

(** A cursor that holds a lone surrogate stops the run at its second turn:
    encodeURIComponent throws while the URL is built, outside any [try].  The
    orders of the first page have been posted, no second request is made, and
    the run ends in the handler of line 185 without printing its totals. *)
Theorem lone_surrogate_cursor_is_fatal
    (w : world) (status : nat) (page : value) (c : string) :
  opensea w 0 None = Response status (BodyJson page) ->
  ok status = true ->
  carries_orders (PROXY_CONTRACT_ADDRESS w) page ->
  next_cursor page = Ok (JStr c) ->
  c <> "" ->
  isWellFormed c = false ->
  exists fuel0 s,
    (forall fuel, fuel0 <= fuel -> main w fuel = Fatal URIError s) /\
    fetches s = [None] /\
    posts s = listed (PROXY_CONTRACT_ADDRESS w) (orders_of page) /\
    cursor s = JStr c.
Proof.
  intros Hres Hok Hpage Hnext Hc Hwf.
  destruct (main_loop_turn_posts w initial page (JStr c) status)
    as (k & s & Hturn & Hcur & Hfetches & Hposts);
    [now left | exact Hres | exact Hok | exact Hpage | exact Hnext |].
  exists (S k), s. split; [|split; [exact Hfetches|split; [exact Hposts|exact Hcur]]].
  intros fuel Hfuel. unfold main.
  replace fuel with (S (k + (fuel - S k))) at 2 by lia.
  rewrite Hturn, (nonempty_truthy c Hc).
  destruct fuel as [|n]; [lia|].
  now rewrite (main_loop_rejects_cursor w n _ s c Hcur Hc Hwf).
Qed.

(** ** Requests and responses *)

Lemma paced_bind_at {A B : Type} (m : task A) (k : A -> task B)
    (fuel : nat) (s : state) :
  paced_at m fuel s ->
  (forall a fuel' s', m fuel s = Returned a fuel' s' -> fuel' <= fuel ->
                      paced_at (k a) fuel' s') ->
  paced_at (bind m k) fuel s.
Proof.
  unfold paced_at, bind. intros Hm Hk.
  destruct (m fuel s) as [a fuel' s'|e s'|s']; [|exact Hm..].
  destruct Hm as [Hle Hreq]. specialize (Hk a fuel' s' eq_refl Hle).
  destruct (k a fuel' s') as [b fuel'' s''|e s''|s''].
  - destruct Hk as [Hle' Hreq']. split; lia.
  - destruct Hk as (j & Hj & Hreq'). exists (fuel - fuel' + j). split; lia.
  - lia.
Qed.

Lemma paced_bind {A B : Type} (m : task A) (k : A -> task B) :
  paced m -> (forall a, paced (k a)) -> paced (bind m k).
Proof.
  intros Hm Hk fuel s. apply paced_bind_at; [apply Hm|]. intros. apply Hk.
Qed.

Lemma paced_ret {A : Type} (a : A) : paced (ret a).
Proof. intros fuel s. unfold paced_at, ret. split; lia. Qed.

Lemma paced_lift {A : Type} (r : result A) : paced (lift r).
Proof.
  intros fuel s. unfold paced_at, lift. destruct r; [split; lia|].
  exists 0. split; lia.
Qed.

Lemma paced_fetchOrders (w : world) (c : value) : paced (fetchOrders w c).
Proof.
  unfold fetchOrders. apply paced_bind; [apply paced_lift|]. intros param.
  intros fuel s. unfold paced_at, fetch_opensea. unfold bind, get_state, put_state, await.
  assert (forall x, requests (log_fetch x s) = requests s + 1) as Hlog.
  { intros x. unfold requests, log_fetch. cbn [fetches posts].
    rewrite length_app. cbn [length]. lia. }
  destruct fuel as [|fuel]; cbv beta iota; fold (log_fetch param s);
    [rewrite Hlog; lia|].
  destruct (opensea w _ _) as [|status b]; unfold lift, ret.
  - exists 1. rewrite Hlog. split; lia.
  - destruct (negb (ok status)); [rewrite Hlog; split; lia|].
    destruct b; [rewrite Hlog; split; lia|]. exists 1. rewrite Hlog. split; lia.
Qed.

Lemma paced_process_order (w : world) (ord : value) : paced (process_order w ord).
Proof.
  intros fuel s. unfold paced_at.
  destruct (normalize (PROXY_CONTRACT_ADDRESS w) ord) as [[|p]|e] eqn:Hn.
  - rewrite (process_order_Skip _ _ _ _ Hn). split; lia.
  - destruct fuel as [|fuel].
    + unfold process_order, bind, lift. rewrite Hn.
      cbn. unfold requests. cbn [fetches posts]. rewrite length_app. cbn [length]. lia.
    + rewrite (process_order_Listing _ _ _ _ _ Hn).
      unfold requests. cbn [fetches posts]. rewrite length_app. cbn [length].
      split; lia.
  - unfold process_order, bind, lift. rewrite Hn. exists 0. split; lia.
Qed.

Lemma paced_for_of {A : Type} (l : list A) (body : A -> task unit) :
  (forall x, paced (body x)) -> paced (for_of l body).
Proof.
  intros Hbody. induction l as [|x l IH]; cbn [for_of]; [apply paced_ret|].
  apply paced_bind; [apply Hbody|]. intros _. exact IH.
Qed.

Lemma paced_set_cursor (c : value) : paced (set_cursor c).
Proof. intros fuel s. unfold paced_at. cbn. unfold requests. cbn. split; lia. Qed.

(** As long as the bound on the turns is above the budget. *)
Lemma paced_main_loop (w : world) (n : nat) :
  forall fuel s, fuel < n -> paced_at (main_loop w n) fuel s.
Proof.
  induction n as [|n IH]; intros fuel s Hn; [lia|]. cbn [main_loop].
  apply paced_bind_at; [unfold paced_at, get_state; split; lia|].
  intros s0 f0 s0' H0 _. injection H0; intros; subst.
  apply paced_bind_at; [apply paced_lift|]. intros ? f1 s1 _ Hf1.
  apply paced_bind_at; [apply paced_fetchOrders|]. intros data f2 s2 H2 _.
  apply fetchOrders_spends in H2.
  apply paced_bind_at; [apply paced_lift|]. intros len f3 s3 _ Hf3.
  destruct (negb (truthy len)); [apply paced_ret|].
  apply paced_bind_at; [apply paced_lift|]. intros orders f4 s4 _ Hf4.
  apply paced_bind_at; [apply paced_for_of; intros ord; apply paced_process_order|].
  intros ? f5 s5 _ Hf5.
  apply paced_bind_at; [apply paced_lift|]. intros next f6 s6 _ Hf6.
  apply paced_bind_at; [apply paced_set_cursor|]. intros ? f7 s7 _ Hf7.
  destruct (negb (truthy next)); [apply paced_ret|].
  apply IH. lia.
Qed.

(** The run never has more than one request out: once [fuel] responses have
    been delivered, a run that is still going has made exactly one request
    more than it has had answers, and a run that has ended, normally or in
    the handler of line 185, has had an answer to every request it made. *)
Theorem one_request_at_a_time (w : world) (fuel : nat) :
  match main w fuel with
  | Running s => requests s = S fuel
  | Done s | Fatal _ s => requests s <= fuel
  end.
Proof.
  unfold main.
  pose proof (paced_main_loop w (S fuel) fuel initial (Nat.lt_succ_diag_r fuel)) as H.
  unfold paced_at in H.
  destruct (main_loop w (S fuel) fuel initial) as [a f s|e s|s];
    unfold requests in *; cbn [initial fetches posts length] in H.
  - lia.
  - destruct H as (k & Hk & H). lia.
  - lia.
Qed.

End Properties.

(** ** Concrete runs *)

Lemma serve_pages_serves (pages : list value) : serves (world_of pages) pages.
Proof.
  intros i page Hi param. exists 200. split; [reflexivity|].
  cbn. unfold serve_pages. now rewrite Hi.
Qed.

(** *** Orders without a seller (C1, C2) *)

Lemma unresolved_seller_throws_witness :
  normalize (JStr "0xproxy") order_without_maker = Throw TypeError.
Proof.
  apply (unresolved_seller_throws (JStr "0xproxy") order_without_maker
           (JObj [("identifier", JStr "1")])).
  - reflexivity.
  - reflexivity.
  - reflexivity.
  - left. split; reflexivity.
Defined.

(** C2 (what the code does instead).  One page with one order that has a
    token and no maker: the TypeError thrown while the payload is built is
    caught nowhere in [main]; the run ends in the handler of line 185 with
    nothing counted, nothing posted and no totals printed. *)
Theorem makerless_order_is_fatal (fuel : nat) :
  normalize (JStr "0xproxy") order_without_maker = Throw TypeError /\
  main (world_of [makerless_page]) (S fuel) = Fatal TypeError (log_fetch None initial).
Proof. split; reflexivity. Qed.

(** *** Failing fetches (C3) *)

(** C3 (what the code does instead).  fetchOrders has no try block: when the
    transport fails, or when a response with a success status has a body that
    is not JSON, the rejection passes through [main] to the handler of line
    185; the loop does not end normally and prints no totals. *)
Theorem fetch_rejection_is_fatal (fuel : nat) :
  main unreachable_world (S fuel) = Fatal FetchFailed (log_fetch None initial) /\
  main garbled_world (S fuel) = Fatal JsonSyntaxError (log_fetch None initial).
Proof. split; reflexivity. Qed.

(** *** The synthesized order hash (C4) *)

Lemma orderHash_synthesized_from_maker_address_witness :
  exists t a,
    to_string (tokenId sample_payload) = Ok t /\
    Get (maker (normalizeOrder (listing_order "7" "0xAbC"))) "address" = JStr a /\
    a <> "" /\
    sellerAddress sample_payload = to_lower a /\
    payload_orderHash sample_payload = JStr (t ++ "-" ++ a).
Proof.
  apply (orderHash_synthesized_from_maker_address
           (JStr "0xproxy") (listing_order "7" "0xAbC") sample_payload);
    reflexivity.
Defined.

(** C4 fails as stated: the hash is built from the maker's address as
    received, not from sellerAddress, so it keeps the capitals that
    sellerAddress has lost; and for a maker given as a bare string the hash
    says unknown although sellerAddress is resolved. *)
Lemma orderHash_is_not_built_from_sellerAddress :
  normalize (JStr "0xproxy") (listing_order "7" "0xAbC") = Ok (Listing sample_payload) /\
  sellerAddress sample_payload = "0xabc" /\
  payload_orderHash sample_payload = JStr "7-0xAbC" /\
  payload_orderHash sample_payload <> JStr ("7" ++ "-" ++ sellerAddress sample_payload) /\
  normalize (JStr "0xproxy") bare_maker_order = Ok (Listing bare_maker_payload) /\
  sellerAddress bare_maker_payload = "0xabc" /\
  payload_orderHash bare_maker_payload = JStr "7-unknown".
Proof. repeat split. discriminate. Qed.

(** *** Token identifiers (C5) *)

Lemma extractTokenId_first_truthy_witness :
  extractTokenId (JObj [("identifier", JStr ""); ("token_id", JStr "7")]) =
    Ok (first_truthy
          (tokenId_candidates (JObj [("identifier", JStr ""); ("token_id", JStr "7")]))) /\
  (normalize JUndefined
     (JObj [("asset", JObj [("identifier", JStr ""); ("token_id", JStr "7")])]) =
     Ok Skip <->
   forallb (fun v => negb (truthy v))
     (tokenId_candidates (JObj [("identifier", JStr ""); ("token_id", JStr "7")])) =
     true).
Proof.
  apply (extractTokenId_first_truthy JUndefined
           (JObj [("asset", JObj [("identifier", JStr ""); ("token_id", JStr "7")])])
           (JObj [("identifier", JStr ""); ("token_id", JStr "7")]));
    reflexivity.
Defined.

(** C5 fails as stated: an identifier that is 0 or the empty string is not
    null, yet extractTokenId passes over it, and an order that has no other
    candidate is skipped. *)
Lemma falsy_identifier_is_passed_over :
  nullish (Get (JObj [("identifier", JNum 0%Z)]) "identifier") = false /\
  extractTokenId (JObj [("identifier", JNum 0%Z)]) = Ok JNull /\
  normalize JUndefined (JObj [("asset", JObj [("identifier", JNum 0%Z)])]) = Ok Skip /\
  normalize JUndefined (JObj [("asset", JObj [("identifier", JStr "")])]) = Ok Skip /\
  extractTokenId (JObj [("identifier", JStr ""); ("token_id", JStr "7")]) =
    Ok (JStr "7").
Proof. repeat split. Qed.

(** *** Skipped orders (C6) *)

Lemma skipped_order_leaves_no_trace_witness :
  normalize (PROXY_CONTRACT_ADDRESS idle_world) (JObj [("maker", JStr "0xabc")]) =
    Ok Skip /\
  process_order idle_world (JObj [("maker", JStr "0xabc")]) 3 initial =
    Returned tt 3 initial.
Proof.
  apply (skipped_order_leaves_no_trace idle_world (JObj [("maker", JStr "0xabc")])
           3 initial).
  left. reflexivity.
Defined.

(** *** Pagination (C7) *)

Lemma pagination_fetches_each_page_once_witness :
  exists fuel0 s,
    (forall fuel, fuel0 <= fuel -> main (world_of [first_page; last_page]) fuel = Done s) /\
    fetches s = [None; Some "abc"] /\
    length (fetches s) = 2.
Proof.
  apply (pagination_fetches_each_page_once (world_of [first_page; last_page])
           [(first_page, "abc")] last_page).
  - apply serve_pages_serves.
  - constructor; [|constructor]. split; [|split; [|split]].
    + exists (listing_order "1" "0xA"), []. split; [reflexivity|].
      constructor; [|constructor]. eexists. reflexivity.
    + reflexivity.
    + discriminate.
    + reflexivity.
  - exists (listing_order "2" "0xB"), []. split; [reflexivity|].
    constructor; [|constructor]. eexists. reflexivity.
  - reflexivity.
Defined.

(** C7 fails as stated: a page that lists no orders ends the loop even when it
    hands on a cursor, so of these two pages only the first is requested. *)
Lemma empty_page_ends_pagination :
  serves (world_of [empty_page; last_page]) [empty_page; last_page] /\
  next_cursor empty_page = Ok (JStr "abc") /\
  resolves (next_cursor last_page) = false /\
  main (world_of [empty_page; last_page]) 0 = Running (log_fetch None initial) /\
  (forall fuel,
      main (world_of [empty_page; last_page]) (S fuel) = Done (log_fetch None initial)) /\
  length (fetches (log_fetch None initial)) = 1 /\
  length [empty_page; last_page] = 2.
Proof.
  split; [apply serve_pages_serves|]. repeat split.
Qed.

(** *** Forwarding (C8) *)

Lemma forward_false_iff_backend_failure_witness :
  exists (sent : bool) (s1 s2 : state),
    postOrderToBackend idle_world sample_payload 1 initial = Returned sent 0 s1 /\
    (sent = false <-> backend_fails accepted) /\
    (sent = true <-> backend_accepts accepted) /\
    process_order idle_world (listing_order "7" "0xAbC") 1 initial = Returned tt 0 s2 /\
    totalScanned s2 = 1 /\
    totalSent s2 = (if sent then 1 else 0) /\
    posts s2 = [sample_payload] /\
    for_of [listing_order "7" "0xAbC"] (process_order idle_world) 1 initial =
      for_of [] (process_order idle_world) 0 s2.
Proof.
  apply (forward_false_iff_backend_failure idle_world (listing_order "7" "0xAbC") []
           sample_payload 0 initial).
  reflexivity.
Defined.

(** *** Soft ends, the price and the seller *)

Lemma non_success_status_ends_run_witness :
  main refusing_world 1 = Done (log_fetch None initial).
Proof.
  apply (non_success_status_ends_run refusing_world 503 BodyMalformed 0);
    reflexivity.
Defined.

Lemma page_without_orders_ends_run_witness :
  main idle_world 1 = Done (log_fetch None initial).
Proof.
  apply (page_without_orders_ends_run idle_world 200 (JObj [("orders", JArr [])]) 0);
    reflexivity.
Defined.

Lemma unresolved_price_defaults_to_zero_witness :
  payload_price sample_payload = JNum 0%Z.
Proof.
  apply (unresolved_price_defaults_to_zero (JStr "0xproxy")
           (listing_order "7" "0xAbC") sample_payload);
    reflexivity.
Defined.

Lemma sellerAddress_is_lowercase_witness :
  all_chars (fun c => negb (capital c)) (sellerAddress sample_payload) = true /\
  exists s,
    sellerAddress sample_payload = to_lower s /\
    (all_chars ascii_char s = true -> sellerAddress sample_payload = lowercase s) /\
    (Get (maker (normalizeOrder (listing_order "7" "0xAbC"))) "address" = JStr s \/
     maker (normalizeOrder (listing_order "7" "0xAbC")) = JStr s).
Proof.
  apply (sellerAddress_is_lowercase (JStr "0xproxy")
           (listing_order "7" "0xAbC") sample_payload).
  reflexivity.
Defined.

(** *** The scenarios of the specification *)

(** Scenarios A to E: the totals printed, the requests made to OpenSea and
    the number of payloads posted, once enough responses have arrived. *)
Theorem specification_scenarios (fuel : nat) :
  (exists s, main (world_of [two_orders_page]) (3 + fuel) = Done s /\
             totalScanned s = 2 /\ totalSent s = 2) /\
  (exists s, main (world_of [tokenless_page]) (1 + fuel) = Done s /\
             totalScanned s = 0 /\ totalSent s = 0 /\ posts s = []) /\
  (exists s, main failing_backend_world (2 + fuel) = Done s /\
             totalScanned s = 1 /\ totalSent s = 0) /\
  (exists s, main refusing_world (1 + fuel) = Done s /\
             totalScanned s = 0 /\ totalSent s = 0 /\ fetches s = [None]) /\
  (exists s, main (world_of [first_page; last_page]) (4 + fuel) = Done s /\
             totalScanned s = 2 /\ totalSent s = 2 /\
             fetches s = [None; Some "abc"]).
Proof.
  split; [|split; [|split; [|split]]];
    eexists; (split; [vm_compute; reflexivity|]); repeat split.
Qed.

(** *** The request URL *)

Lemma cursor_cannot_add_parameters_witness :
  exists base encoded,
    fetchOrders_url "0xabc" JNull = Ok base /\
    "https://api.opensea.io/api/v2/orders/apechain/listings?limit=50&asset_contract_address=0xabc&cursor=a%26b%3Dc" =
      base ++ "&cursor=" ++ encoded /\
    all_chars uri_safe encoded = true.
Proof.
  apply (cursor_cannot_add_parameters "0xabc" (JStr "a&b=c")); reflexivity.
Defined.

(** *** The payload of a full order *)

Lemma order_is_listed_iff_witness :
  (exists p, normalize (JStr "0xproxy") full_order = Ok (Listing p)) <->
  truthy (JObj [("token_id", JStr "9"); ("image", JStr "ipfs://nine")]) = true /\
  truthy (JStr "9") = true /\
  (exists a, seller_value full_order = JStr a) /\
  (truthy (orderHash (normalizeOrder full_order)) = true \/
   exists t, to_string (JStr "9") = Ok t).
Proof.
  apply (order_is_listed_iff (JStr "0xproxy") full_order
           (JObj [("token_id", JStr "9"); ("image", JStr "ipfs://nine")]) (JStr "9"));
    reflexivity.
Defined.

Lemma listing_fields_are_first_matches_witness :
  tokenId full_payload = JStr "9" /\
  image full_payload =
    first_truthy
      (image_candidates (JObj [("token_id", JStr "9"); ("image", JStr "ipfs://nine")])) /\
  seaportOrder full_payload =
    (if truthy (first_truthy (protocol_candidates full_order))
     then first_truthy (protocol_candidates full_order) else full_order) /\
  (truthy (first_truthy (orderHash_candidates full_order)) = true ->
   payload_orderHash full_payload = first_truthy (orderHash_candidates full_order)) /\
  (truthy (first_truthy (price_candidates full_order)) = true ->
   payload_price full_payload = first_truthy (price_candidates full_order)).
Proof.
  apply (listing_fields_are_first_matches (JStr "0xproxy") full_order
           (JObj [("token_id", JStr "9"); ("image", JStr "ipfs://nine")]) (JStr "9")
           full_payload);
    reflexivity.
Defined.

(** *** Orders that cannot be iterated *)

Lemma non_iterable_orders_is_fatal_witness :
  main array_like_world 1 = Fatal TypeError (log_fetch None initial).
Proof.
  apply (non_iterable_orders_is_fatal array_like_world 200 array_like_page
           TypeError 0);
    reflexivity.
Defined.

(** *** What two pages post *)

Lemma pagination_posts_every_listing_once_witness :
  exists fuel0 s,
    (forall fuel, fuel0 <= fuel -> main (world_of [first_page; last_page]) fuel = Done s) /\
    posts s =
      listed (JStr "0xproxy") (flat_map orders_of [first_page; last_page]).
Proof.
  apply (pagination_posts_every_listing_once (world_of [first_page; last_page])
           [(first_page, "abc")] last_page).
  - apply serve_pages_serves.
  - constructor; [|constructor]. split; [|split; [|split]].
    + exists (listing_order "1" "0xA"), []. split; [reflexivity|].
      constructor; [|constructor]. eexists. reflexivity.
    + reflexivity.
    + discriminate.
    + reflexivity.
  - exists (listing_order "2" "0xB"), []. split; [reflexivity|].
    constructor; [|constructor]. eexists. reflexivity.
  - reflexivity.
Defined.

(** *** A cursor that repeats itself *)

Lemma run_never_ends_while_cursors_are_handed_on_witness :
  exists s, main looping_world 5 = Running s.
Proof.
  apply (run_never_ends_while_cursors_are_handed_on looping_world 5).
  intros i param. exists 200, first_page, "abc".
  split; [reflexivity|]. split; [reflexivity|].
  split; [|split; [reflexivity|split; [discriminate|reflexivity]]].
  exists (listing_order "1" "0xA"), []. split; [reflexivity|].
  constructor; [|constructor]. eexists. reflexivity.
Defined.

(** *** A cursor that cannot be escaped *)

Lemma lone_surrogate_cursor_is_fatal_witness :
  exists fuel0 s,
    (forall fuel, fuel0 <= fuel ->
                  main (world_of [surrogate_page; last_page]) fuel = Fatal URIError s) /\
    fetches s = [None] /\
    posts s = listed (JStr "0xproxy") (orders_of surrogate_page) /\
    cursor s = JStr lone_surrogate.
Proof.
  apply (lone_surrogate_cursor_is_fatal (world_of [surrogate_page; last_page])
           200 surrogate_page lone_surrogate).
  - reflexivity.
  - reflexivity.
  - exists (listing_order "1" "0xA"), []. split; [reflexivity|].
    constructor; [|constructor]. eexists. reflexivity.
  - reflexivity.
  - discriminate.
  - reflexivity.
Defined.
